(** * Spotlight API: participation ledger and event query engine

    A shallow embedding of [BookmarksService] (app/events/services/
    bookmarks_service.ts), of [EventsService.getAll]
    (app/events/services/events_service.ts) and of the response built by
    [GetEventsController.handle], over an explicit relational store.

    The store holds the three tables the services touch.  Tables are lists
    in the store's row order, because [first()] and the order of rows
    with equal sort keys depend on that order.  The ORM calls (find, where,
    first, create, save, delete, join, orderBy, paginate) are given their
    meaning as functions on the store; the services are written on top of
    them, statement by statement.  Asynchronous calls are sequenced: each
    service call runs against the store alone, except where a definition
    says otherwise. *)

From Stdlib Require Import ZArith List String Ascii Bool Lia.
From Stdlib Require Import Sorting.Sorted.
From Stdlib Require Import DecimalString.
Import ListNotations.
Open Scope Z_scope.

(** ** Exceptions and results *)

(** What a service call can throw: the repository's [NotFoundException]
    with its message, and the store's own refusals. *)
Inductive Exception : Type :=
| NotFoundException (message : string)
| UniqueViolation
| ForeignKeyViolation
| QueryError.

Inductive Result (A : Type) : Type :=
| Ok (a : A)
| Throw (e : Exception).

Arguments Ok {A} a.
Arguments Throw {A} e.

Definition bind {A B : Type} (r : Result A) (k : A -> Result B) : Result B :=
  match r with
  | Ok a => k a
  | Throw e => Throw e
  end.

Notation "x <- r ;; k" := (bind r (fun x => k))
  (at level 61, r at next level, right associativity).

(** ** Rows *)

(** Calendar dates (the DATE columns) are day numbers; a JavaScript [Date]
    and a timestamp column are milliseconds since the epoch. *)
Definition SqlDate := Z.
Definition JsDate := Z.

Module User.
Record t : Type := mk { id : Z; full_name : string; email : string }.
End User.

(** The columns of [events] that the listing reads
    (migration create_events_table). *)
Module Event.
Record t : Type := mk {
  id : Z;
  title : string;
  city : string;
  type : string;
  subtype : string;
  startDate : SqlDate;
  endDate : option SqlDate
}.
End Event.

(** The columns of [event_users] (migration create_event_users_table): a
    pair (user, event) with the two flags and the creation time.  The
    column updated_at is left out: no service reads it. *)
Module EventUser.
Record t : Type := mk {
  id : Z;
  userId : Z;
  eventId : Z;
  isFavorite : bool;
  hasJoined : bool;
  createdAt : Z
}.
End EventUser.

(** ** The store *)

Record Store : Type := mkStore {
  users : list User.t;
  events : list Event.t;
  event_users : list EventUser.t;
  (** the AUTO_INCREMENT counter of event_users.id *)
  next_event_user_id : Z
}.

(** ** The ORM over the store *)

Module Lucid.

(** [Model.find(id)]: the row with that primary key. *)
Definition findUser (s : Store) (k : Z) : option User.t :=
  find (fun u => User.id u =? k) (users s).

Definition findEvent (s : Store) (k : Z) : option Event.t :=
  find (fun e => Event.id e =? k) (events s).

(** [query().where(...)...first()]: the first row, in store order, that
    satisfies every [where]. *)
Definition first {A : Type} (wheres : A -> bool) (table : list A) : option A :=
  find wheres table.

(** unique(['user_id', 'event_id']) of the migration. *)
Definition same_pair (u e : Z) (r : EventUser.t) : bool :=
  (EventUser.userId r =? u) && (EventUser.eventId r =? e).

(** [EventUser.create({...})]: an INSERT.  The store refuses it when the
    pair is already there (the unique constraint) or when a foreign key
    points nowhere; otherwise the row gets the next id and the insertion
    time, and goes after the rows already stored. *)
Definition createEventUser (now : Z) (u e : Z) (fav joined : bool) (s : Store)
  : Result (EventUser.t * Store) :=
  if existsb (same_pair u e) (event_users s) then Throw UniqueViolation
  else match findUser s u, findEvent s e with
       | Some _, Some _ =>
           let row := EventUser.mk (next_event_user_id s) u e fav joined now in
           Ok (row, mkStore (users s) (events s) (event_users s ++ [row])
                            (next_event_user_id s + 1))
       | _, _ => Throw ForeignKeyViolation
       end.

(** [row.isFavorite = v] on the row object read earlier. *)
Definition setFavorite (v : bool) (r : EventUser.t) : EventUser.t :=
  EventUser.mk (EventUser.id r) (EventUser.userId r) (EventUser.eventId r)
               v (EventUser.hasJoined r) (EventUser.createdAt r).

(** UPDATE event_users SET is_favorite = v WHERE id = k.  A row that is
    gone by then is not an error: no row is updated. *)
Definition updateIsFavorite (k : Z) (v : bool) (s : Store) : Store :=
  mkStore (users s) (events s)
          (map (fun r => if EventUser.id r =? k then setFavorite v r else r)
               (event_users s))
          (next_event_user_id s).

(** [row.isFavorite = v; row.save()] on a row object [original] read
    earlier: the ORM sends the columns that differ from what was read, by
    primary key, and sends nothing when none differs. *)
Definition saveIsFavorite (original : EventUser.t) (v : bool) (s : Store)
  : Store :=
  if Bool.eqb (EventUser.isFavorite original) v then s
  else updateIsFavorite (EventUser.id original) v s.

(** [row.delete()]: DELETE WHERE id = the row's primary key. *)
Definition deleteEventUser (k : Z) (s : Store) : Store :=
  mkStore (users s) (events s)
          (filter (fun r => negb (EventUser.id r =? k)) (event_users s))
          (next_event_user_id s).

(** *** ORDER BY *)

(** Insertion of [x] before the first row it may precede.  Sorting by
    repeated insertion from the right keeps rows with equal keys in store
    order. *)
Fixpoint insertBy {A : Type} (precedes : A -> A -> bool) (x : A) (l : list A)
  : list A :=
  match l with
  | [] => [x]
  | y :: l' => if precedes x y then x :: l else y :: insertBy precedes x l'
  end.

Definition orderBy {A : Type} (precedes : A -> A -> bool) (l : list A) : list A :=
  fold_right (insertBy precedes) [] l.

(** *** LIKE *)

(** Strings are compared by LIKE without regard to letter case. *)
Definition lower (c : ascii) : ascii :=
  let n := nat_of_ascii c in
  if ((65 <=? n) && (n <=? 90))%nat then ascii_of_nat (n + 32) else c.

Definition eq_ci (a b : ascii) : bool := Ascii.eqb (lower a) (lower b).

Definition percent : ascii := "%"%char.
Definition underscore : ascii := "_"%char.
Definition backslash : ascii := "\"%char.

(** The pattern language of the store: [%] stands for any run of
    characters, [_] for any one character, a backslash makes the next
    pattern character stand for itself, every other character stands for
    itself. *)
Fixpoint like_star (rest : list ascii -> bool) (s : list ascii) : bool :=
  rest s || match s with [] => false | _ :: s' => like_star rest s' end.

Fixpoint like (pattern : list ascii) : list ascii -> bool :=
  match pattern with
  | [] => fun s => match s with [] => true | _ :: _ => false end
  | c :: p =>
      if Ascii.eqb c percent then like_star (like p)
      else if Ascii.eqb c underscore then
        fun s => match s with [] => false | _ :: s' => like p s' end
      else if Ascii.eqb c backslash then
        match p with
        | [] => fun s => match s with
                         | [x] => eq_ci x backslash
                         | _ => false
                         end
        | e :: p' => fun s => match s with
                              | [] => false
                              | x :: s' => eq_ci x e && like p' s'
                              end
        end
      else
        fun s => match s with
                 | [] => false
                 | x :: s' => eq_ci x c && like p s'
                 end
  end.

Definition whereILike (pattern value : string) : bool :=
  like (list_ascii_of_string pattern) (list_ascii_of_string value).

(** *** Pagination *)

(** A JavaScript number that need not be finite: [lastPage] is computed by
    a division. *)
Inductive JsNumber : Type :=
| Finite (z : Z)
| Infinity
| NaN.

(** [Math.max(Math.ceil(total / perPage), 1)] for integers [total >= 0]. *)
Definition lastPageOf (total perPage : Z) : JsNumber :=
  if perPage =? 0 then (if total =? 0 then NaN else Infinity)
  else Finite (Z.max (- ((- total) / perPage)) 1).

Definition js_gt (a : JsNumber) (b : Z) : bool :=
  match a with
  | Finite z => b <? z
  | Infinity => true
  | NaN => false
  end.

Definition js_neq (a : JsNumber) (b : Z) : bool :=
  match a with
  | Finite z => negb (z =? b)
  | _ => true
  end.

(** The paginator object: the rows of the page and the fields computed by
    its constructor. *)
Record Paginator (A : Type) : Type := mkPaginator {
  all : list A;
  total : Z;
  perPage : Z;
  currentPage : Z;
  lastPage : JsNumber;
  firstPage : Z;
  hasPages : bool;
  hasMorePages : bool;
  isEmpty : bool
}.

Arguments mkPaginator {A}.
Arguments all {A}.
Arguments total {A}.
Arguments perPage {A}.
Arguments currentPage {A}.
Arguments lastPage {A}.
Arguments firstPage {A}.
Arguments hasPages {A}.
Arguments hasMorePages {A}.
Arguments isEmpty {A}.

Definition newPaginator {A : Type} (totalNumber perPage currentPage : Z)
  (rows : list A) : Paginator A :=
  let lastPage := lastPageOf totalNumber perPage in
  mkPaginator rows totalNumber perPage currentPage lastPage 1
              (js_neq lastPage 1) (js_gt lastPage currentPage)
              (match rows with [] => true | _ :: _ => false end).

(** [forPage(page, perPage)]: OFFSET perPage * (page - 1) LIMIT perPage.
    The query builder throws on a negative offset and the store rejects a
    negative limit. *)
Definition forPage {A : Type} (page perPage : Z) (rows : list A)
  : Result (list A) :=
  let offset := perPage * (page - 1) in
  if (offset <? 0) || (perPage <? 0) then Throw QueryError
  else Ok (firstn (Z.to_nat perPage) (skipn (Z.to_nat offset) rows)).

(** [query.paginate(page, perPage)] on the rows the query selects, already
    in the query's order: a count first, and the page query only when the
    count is positive. *)
Definition paginate {A : Type} (page perPage : Z) (rows : list A)
  : Result (Paginator A) :=
  let total := Z.of_nat (List.length rows) in
  results <- (if 0 <? total then forPage page perPage rows else Ok []) ;;
  Ok (newPaginator total perPage page results).

(** [event.delete()]: DELETE FROM events WHERE id = k.  The foreign key
    event_users.event_id is declared onDelete('CASCADE'): the
    participation rows of the event go with it. *)
Definition deleteEvent (k : Z) (s : Store) : Store :=
  mkStore (users s)
          (filter (fun ev => negb (Event.id ev =? k)) (events s))
          (filter (fun r => negb (EventUser.eventId r =? k)) (event_users s))
          (next_event_user_id s).

End Lucid.

(** ** BookmarksService (app/events/services/bookmarks_service.ts) *)

Module BookmarksService.

(** [addBookmark], lines 20-36: the three reads.  The result is the
    participation row found for the pair, if any. *)
Definition addBookmark_read (userId eventId : Z) (s : Store)
  : Result (option EventUser.t) :=
  match Lucid.findEvent s eventId with
  | None => Throw (NotFoundException "Event not found")
  | Some _ =>
      match Lucid.findUser s userId with
      | None => Throw (NotFoundException "User not found")
      | Some _ =>
          Ok (Lucid.first (Lucid.same_pair userId eventId) (event_users s))
      end
  end.

(** [addBookmark], lines 38-51: the write, decided by what was read, and
    run against the store as it is when the write arrives. *)
Definition addBookmark_write (now userId eventId : Z)
  (eventUser : option EventUser.t) (s : Store) : Result (EventUser.t * Store) :=
  match eventUser with
  | Some row =>
      Ok (Lucid.setFavorite true row, Lucid.saveIsFavorite row true s)
  | None => Lucid.createEventUser now userId eventId true false s
  end.

(** [addBookmark(userId, eventId)] called at time [now], alone on the
    store. *)
Definition addBookmark (now userId eventId : Z) (s : Store)
  : Result (EventUser.t * Store) :=
  eventUser <- addBookmark_read userId eventId s ;;
  addBookmark_write now userId eventId eventUser s.

(** [addBookmark] with the writes of other requests, [others], committed
    between its reads and its write. *)
Definition addBookmark_interleaved (now userId eventId : Z)
  (others : Store -> Store) (s : Store) : Result (EventUser.t * Store) :=
  eventUser <- addBookmark_read userId eventId s ;;
  addBookmark_write now userId eventId eventUser (others s).

(** [removeBookmark(userId, eventId)]. *)
Definition removeBookmark (userId eventId : Z) (s : Store)
  : Result (bool * Store) :=
  match Lucid.first
          (fun r => Lucid.same_pair userId eventId r && EventUser.isFavorite r)
          (event_users s) with
  | None => Ok (false, s)
  | Some eventUser =>
      if EventUser.hasJoined eventUser
      then Ok (true, Lucid.saveIsFavorite eventUser false s)
      else Ok (true, Lucid.deleteEventUser (EventUser.id eventUser) s)
  end.

(** The rows of [Event.query().join('event_users', 'events.id',
    'event_users.event_id')]: each event with each participation row that
    points to it.  The query has no select, so a row holds the columns of
    both tables. *)
Definition joinEventUsers (s : Store) : list (Event.t * EventUser.t) :=
  flat_map
    (fun ev => map (fun r => (ev, r))
                   (filter (fun r => EventUser.eventId r =? Event.id ev)
                           (event_users s)))
    (events s).

(** The rows behind [getUserBookmarks] before they are cut into pages:
    the joined rows of the user's favorites, latest participation first.
    Rows of equal created_at come in an order the database chooses; here
    they keep the order of the tables, and no property below depends on
    it. *)
Definition userBookmarkRows (userId : Z) (s : Store)
  : list (Event.t * EventUser.t) :=
  Lucid.orderBy
    (fun a b => EventUser.createdAt (snd b) <=? EventUser.createdAt (snd a))
    (filter (fun j => (EventUser.userId (snd j) =? userId)
                      && EventUser.isFavorite (snd j))
            (joinEventUsers s)).

(** The Event model made of a joined row.  The driver returns a row as
    one object keyed by column name, and both tables have the columns id,
    created_at and updated_at: the value of event_users, the later one in
    the row, is the one that stays.  The model's id is therefore the
    participation row's id (and so are its two timestamps, which [Event.t]
    does not hold); user_id, event_id, is_favorite and has_joined are no
    columns of the model and go to its extras. *)
Definition hydrateEvent (j : Event.t * EventUser.t) : Event.t :=
  let (ev, r) := j in
  Event.mk (EventUser.id r) (Event.title ev) (Event.city ev) (Event.type ev)
           (Event.subtype ev) (Event.startDate ev) (Event.endDate ev).

(** The models of the whole bookmarks listing. *)
Definition bookmarkListing (userId : Z) (s : Store) : list Event.t :=
  map hydrateEvent (userBookmarkRows userId s).

(** [getUserBookmarks(userId, page = 1, limit = 20)]; an argument left out
    is [None]. *)
Definition getUserBookmarks (userId : Z) (page limit : option Z) (s : Store)
  : Result (Lucid.Paginator Event.t) :=
  let page := match page with Some p => p | None => 1 end in
  let limit := match limit with Some l => l | None => 20 end in
  Lucid.paginate page limit (bookmarkListing userId s).

(** [isBookmarked(userId, eventId)]. *)
Definition isBookmarked (userId eventId : Z) (s : Store) : bool :=
  match Lucid.first
          (fun r => Lucid.same_pair userId eventId r && EventUser.isFavorite r)
          (event_users s) with
  | Some _ => true
  | None => false
  end.

(** [getBookmarkStats(userId)]: the field totalBookmarks. *)
Definition getBookmarkStats (userId : Z) (s : Store) : Z :=
  Z.of_nat (List.length
              (filter (fun r => (EventUser.userId r =? userId)
                                && EventUser.isFavorite r)
                      (event_users s))).

End BookmarksService.

(** ** EventsService.getAll (app/events/services/events_service.ts) *)

Module GetEventsOptions.
(** [GetEventsOptions]: every field is optional; a field left out is
    [None]. *)
Record t : Type := mk {
  page : option Z;
  limit : option Z;
  type : option string;
  subtype : option string;
  city : option string;
  startDate : option JsDate;
  endDate : option JsDate;
  userId : option Z
}.
End GetEventsOptions.

(** A row of [artists]: the fields of [ArtistResponseDto]. *)
Module Artist.
Record t : Type := mk { id : Z; name : string; image : string }.
End Artist.

Module EventsService.

(** An event of the listing with its [participants] relation: [None] when
    the relation was not preloaded. *)
Record LoadedEvent : Type := mkLoaded {
  event : Event.t;
  participants : option (list EventUser.t)
}.

(** JavaScript truthiness of an optional string and of an optional
    number: a present empty string and a present zero count as absent. *)
Definition truthyString (v : option string) : option string :=
  match v with
  | Some s => if String.eqb s "" then None else Some s
  | None => None
  end.

Definition truthyNumber (v : option Z) : option Z :=
  match v with
  | Some n => if n =? 0 then None else Some n
  | None => None
  end.

(** [String.prototype.trim] on a string of ASCII characters, whose white
    space is the codes 9 to 13 and 32.  The properties that depend on what
    [trim] takes away are stated for such strings. *)
Definition isSpace (c : ascii) : bool :=
  let n := nat_of_ascii c in
  ((9 <=? n) && (n <=? 13))%nat || (n =? 32)%nat.

Fixpoint trimStart (l : list ascii) : list ascii :=
  match l with
  | [] => []
  | c :: l' => if isSpace c then trimStart l' else l
  end.

Definition trim (s : string) : string :=
  string_of_list_ascii
    (rev (trimStart (rev (trimStart (list_ascii_of_string s))))).

(** [DateTime.fromJSDate(d).toSQLDate()] in the zone UTC: the day of the
    instant. *)
Definition toSQLDate (d : JsDate) : SqlDate := d / 86400000.

(** The [where] clauses of the query, one function per clause. *)
Definition whereType (v : string) (ev : Event.t) : bool :=
  String.eqb (Event.type ev) v.

Definition whereSubtype (v : string) (ev : Event.t) : bool :=
  String.eqb (Event.subtype ev) v.

Definition whereCity (normalizedCity : string) (ev : Event.t) : bool :=
  String.eqb (Event.city ev) normalizedCity
  || Lucid.whereILike ("%" ++ normalizedCity ++ "%") (Event.city ev).

Definition whereStartDate (bound : SqlDate) (ev : Event.t) : bool :=
  bound <=? Event.startDate ev.

(** A comparison with an absent end date selects nothing. *)
Definition whereEndDate (bound : SqlDate) (ev : Event.t) : bool :=
  match Event.endDate ev with
  | Some d => d <=? bound
  | None => false
  end.

(** The query under construction: the [where] clauses added so far. *)
Definition Query := list (Event.t -> bool).

Definition addWhere (q : Query) (clause : Event.t -> bool) : Query :=
  q ++ [clause].

Definition selects (q : Query) (ev : Event.t) : bool :=
  forallb (fun clause => clause ev) q.

(** The clauses [getAll] adds for given options (lines 224-250). *)
Definition buildQuery (options : GetEventsOptions.t) : Query :=
  let query : Query := [] in
  let query := match truthyString (GetEventsOptions.type options) with
               | Some type => addWhere query (whereType type)
               | None => query
               end in
  let query := match truthyString (GetEventsOptions.subtype options) with
               | Some subtype => addWhere query (whereSubtype subtype)
               | None => query
               end in
  let query := match truthyString (GetEventsOptions.city options) with
               | Some city =>
                   let normalizedCity := trim city in
                   addWhere query (whereCity normalizedCity)
               | None => query
               end in
  let query := match GetEventsOptions.startDate options with
               | Some startDate =>
                   addWhere query (whereStartDate (toSQLDate startDate))
               | None => query
               end in
  let query := match GetEventsOptions.endDate options with
               | Some endDate =>
                   addWhere query (whereEndDate (toSQLDate endDate))
               | None => query
               end in
  query.

(** [query.preload('participants', q => q.where('userId', userId))]. *)
Definition preload (s : Store) (userId : option Z) (ev : Event.t)
  : LoadedEvent :=
  match truthyNumber userId with
  | Some u =>
      mkLoaded ev
        (Some (filter (fun r => (EventUser.eventId r =? Event.id ev)
                                && (EventUser.userId r =? u))
                      (event_users s)))
  | None => mkLoaded ev None
  end.

Definition maxLimit : Z := 100.

Definition effectivePage (options : GetEventsOptions.t) : Z :=
  match GetEventsOptions.page options with Some p => p | None => 1 end.

Definition safeLimit (options : GetEventsOptions.t) : Z :=
  let limit := match GetEventsOptions.limit options with
               | Some l => l
               | None => 20
               end in
  Z.min limit maxLimit.

(** The rows the query selects, ordered by start date ascending, before
    pagination. *)
Definition selectedEvents (options : GetEventsOptions.t) (s : Store)
  : list Event.t :=
  Lucid.orderBy (fun a b => Event.startDate a <=? Event.startDate b)
                (filter (selects (buildQuery options)) (events s)).

(** [getAll(options)]. *)
Definition getAll (options : GetEventsOptions.t) (s : Store)
  : Result (Lucid.Paginator LoadedEvent) :=
  Lucid.paginate (effectivePage options) (safeLimit options)
                 (map (preload s (GetEventsOptions.userId options))
                      (selectedEvents options s)).


(** A number in a template string or in [join]: its decimal writing. *)
Definition numberToString (n : Z) : string :=
  NilZero.string_of_int (Z.to_int n).

(** [Artist.query().whereIn('id', artistIds)] on the table [artists]. *)
Definition whereInIds (artistIds : list Z) (artists : list Artist.t)
  : list Artist.t :=
  filter (fun artist => existsb (Z.eqb (Artist.id artist)) artistIds) artists.

(** [validateArtistsExist(artistIds)] (lines 88-97). *)
Definition validateArtistsExist (artists : list Artist.t) (artistIds : list Z)
  : Result unit :=
  match artistIds with
  | [] => Ok tt
  | _ :: _ =>
      let existingArtists := whereInIds artistIds artists in
      if negb (Nat.eqb (List.length existingArtists) (List.length artistIds))
      then
        let existingIds := map Artist.id existingArtists in
        let missingIds :=
          filter (fun artistId => negb (existsb (Z.eqb artistId) existingIds))
                 artistIds in
        Throw (NotFoundException
                 ("Artists not found: "
                  ++ String.concat ", " (map numberToString missingIds)))
      else Ok tt
  end.

(** [delete(id)] (lines 366-384), on the store.  The call to
    [driveService.deleteFile] in between removes the banner file from the
    disk; it catches its own errors and touches no table. *)
Definition delete (id : Z) (s : Store) : bool * Store :=
  match Lucid.findEvent s id with
  | None => (false, s)
  | Some event => (true, Lucid.deleteEvent (Event.id event) s)
  end.

End EventsService.

(** ** GetEventsController.handle
    (app/events/controllers/get_events_controller.ts) *)

Module GetEventsController.

Record Meta : Type := mkMeta {
  total : Z;
  perPage : Z;
  currentPage : Z;
  lastPage : Lucid.JsNumber;
  firstPage : Z;
  hasPages : bool;
  hasMorePages : bool;
  isEmpty : bool
}.

Inductive Response : Type :=
| ok (message : string) (data : list EventsService.LoadedEvent) (meta : Meta)
| internalServerError (message : string) (error : Exception).

(** [handle] from line 32 on: [queryParams] is what the validator let
    through and [authUserId] the id of the authenticated user, if any. *)
Definition handle (queryParams : GetEventsOptions.t) (authUserId : option Z)
  (s : Store) : Response :=
  let eventsOptions :=
    GetEventsOptions.mk
      (GetEventsOptions.page queryParams) (GetEventsOptions.limit queryParams)
      (GetEventsOptions.type queryParams) (GetEventsOptions.subtype queryParams)
      (GetEventsOptions.city queryParams)
      (GetEventsOptions.startDate queryParams)
      (GetEventsOptions.endDate queryParams) authUserId in
  match EventsService.getAll eventsOptions s with
  | Ok events =>
      ok "Events retrieved successfully" (Lucid.all events)
         (mkMeta (Lucid.total events) (Lucid.perPage events)
                 (Lucid.currentPage events) (Lucid.lastPage events)
                 (Lucid.firstPage events) (Lucid.hasPages events)
                 (Lucid.hasMorePages events) (Lucid.isEmpty events))
  | Throw error =>
      internalServerError "An error occurred while retrieving events" error
  end.

End GetEventsController.

(** ** BookmarksController.store
    (app/events/controllers/bookmarks_controller.ts) *)

Module BookmarksController.

Inductive Response : Type :=
| status201 (message : string) (data : EventUser.t)
| status404 (message : string)
| status500 (message : string) (error : Exception).

(** [store] after authentication and validation, for a service call that
    gave [outcome]: only the message 'Event not found' is answered with
    404, any other exception goes out as a 500 with the exception's own
    message. *)
Definition respond (outcome : Result (EventUser.t * Store)) : Response :=
  match outcome with
  | Ok (bookmark, _) => status201 "Event bookmarked successfully" bookmark
  | Throw error =>
      match error with
      | NotFoundException message =>
          if String.eqb message "Event not found"
          then status404 "Event not found"
          else status500 "Failed to bookmark event" error
      | _ => status500 "Failed to bookmark event" error
      end
  end.

Definition store (now userId eventId : Z) (s : Store) : Response :=
  respond (BookmarksService.addBookmark now userId eventId s).


(** What the catch of [destroy] can receive: the exception of
    [auth.getUserOrFail()], of [request.validateUsing(...)], or of the
    service. *)
Inductive DestroyError : Type :=
| E_UNAUTHORIZED_ACCESS
| E_VALIDATION_ERROR
| ServiceError (error : Exception).

Inductive DestroyResponse : Type :=
| destroy200 (message : string)
| destroy404 (message : string)
| destroy500 (message : string) (error : DestroyError).

(** [destroy]: the answer and the store the call leaves.  [user] is the
    id of the authenticated user, if there is one; [validated] is the
    eventId that removeBookmarkValidator gives for the route parameters,
    if it accepts them.  Both steps are inside the try block. *)
Definition destroy (user validated : option Z) (s : Store)
  : DestroyResponse * Store :=
  match user with
  | None => (destroy500 "Failed to remove bookmark" E_UNAUTHORIZED_ACCESS, s)
  | Some userId =>
      match validated with
      | None => (destroy500 "Failed to remove bookmark" E_VALIDATION_ERROR, s)
      | Some eventId =>
          match BookmarksService.removeBookmark userId eventId s with
          | Ok (removed, s') =>
              if negb removed then (destroy404 "Bookmark not found", s')
              else (destroy200 "Bookmark removed successfully", s')
          | Throw error =>
              (destroy500 "Failed to remove bookmark" (ServiceError error), s)
          end
      end
  end.

End BookmarksController.

(** ** DeleteEventController.handle
    (app/events/controllers/delete_event_controller.ts) *)

Module DeleteEventController.

Inductive Response : Type :=
| ok (message : string) (id : Z) (deleted : bool)
| notFound (message : string) (error : string).

(** [handle] after validation of the id. *)
Definition handle (eventId : Z) (s : Store) : Response * Store :=
  let (deleted, s') := EventsService.delete eventId s in
  if negb deleted then (notFound "Event not found" "EVENT_NOT_FOUND", s')
  else (ok "Event deleted successfully" eventId true, s').

End DeleteEventController.

(** ** DriveService (app/core/services/drive_service.ts)

    The disk is the list of the files that exist, each named once by its
    absolute path after normalisation: the list of its segments from the
    root.  [publicDir] is the path of the application's public directory.
    [join] is node:path's join on POSIX paths: the names are put together
    with '/', empty and '.' segments are dropped and '..' takes the
    segment before it away.  [file.move] with overwrite writes the file at
    [join(location, name)] or throws; [unlink] removes the file at its
    path, and its failure (no file there, or a path that ends in '/') is
    caught by [deleteFile].  The value of [cuid()] and whether the file
    system lets [file.move] succeed are arguments of [uploadFile]. *)

Module DriveService.

Definition Path : Type := list string.
Definition Disk : Type := list Path.

Fixpoint samePath (a b : Path) : bool :=
  match a, b with
  | [], [] => true
  | x :: a', y :: b' => String.eqb x y && samePath a' b'
  | _, _ => false
  end.

(** The segments of a name between its '/' characters. *)
Fixpoint segments (name : string) : list string :=
  match name with
  | EmptyString => [EmptyString]
  | String c name' =>
      if Ascii.eqb c "/" then EmptyString :: segments name'
      else match segments name' with
           | segment :: rest => String c segment :: rest
           | [] => [String c EmptyString]
           end
  end.

(** Normalisation of an absolute path, the segments walked so far kept
    last first: '..' at the root stays at the root. *)
Fixpoint resolve (walked : list string) (names : list string) : list string :=
  match names with
  | [] => walked
  | name :: rest =>
      if String.eqb name "" || String.eqb name "." then resolve walked rest
      else if String.eqb name ".." then resolve (tl walked) rest
      else resolve (name :: walked) rest
  end.

Definition join (location : Path) (name : string) : Path :=
  rev (resolve (rev location) (segments name)).

(** Whether [join(app.publicPath(directory), name)] ends in '/': an empty
    name adds nothing to the joined string. *)
Definition endsWithSlash (name : string) : bool :=
  match rev (list_ascii_of_string name) with
  | c :: _ => Ascii.eqb c "/"
  | [] => false
  end.

Definition joinEndsWithSlash (directory name : string) : bool :=
  if String.eqb name "" then endsWithSlash directory else endsWithSlash name.

Definition move (p : Path) (disk : Disk) : Disk :=
  if existsb (samePath p) disk then disk else disk ++ [p].

Definition unlink (p : Path) (disk : Disk) : Disk :=
  filter (fun q => negb (samePath p q)) disk.

(** [extname] is the extension the body parser found for the file. *)
Record MultipartFile : Type := mkFile { extname : option string }.

Record UploadConfig : Type := mkConfig {
  uploadsPath : string;
  allowedExtensions : list string;
  urlPrefix : option string;
  entityType : string;
  entityId : Z
}.

(** What a call ends in: a value, BadRequestException with its message,
    or the error of [file.move]. *)
Inductive Outcome (A : Type) : Type :=
| Returned (a : A)
| BadRequestException (message : string)
| MoveError.

Arguments Returned {A} a.
Arguments BadRequestException {A} message.
Arguments MoveError {A}.

(** [file.extname || ''] and [file.extname] inside a template string. *)
Definition extnameOrEmpty (file : MultipartFile) : string :=
  match extname file with
  | Some e => e
  | None => EmptyString
  end.

Definition extnameInTemplate (file : MultipartFile) : string :=
  match extname file with
  | Some e => e
  | None => "undefined"%string
  end.

(** [validateFileType(file, allowedExtensions)]. *)
Definition validateFileType (file : MultipartFile)
  (allowedExtensions : list string) : Outcome unit :=
  if negb (existsb (String.eqb (extnameOrEmpty file)) allowedExtensions)
  then BadRequestException
         ("Invalid file type. Allowed types: "
          ++ String.concat ", " allowedExtensions)%string
  else Returned tt.

Definition fileNameOf (cuid : string) (file : MultipartFile)
  (config : UploadConfig) : string :=
  (entityType config ++ "_" ++ EventsService.numberToString (entityId config)
   ++ "_" ++ cuid ++ "." ++ extnameInTemplate file)%string.

(** [config.urlPrefix || `/${config.uploadsPath}/`]: an empty prefix
    counts as none. *)
Definition pathPrefixOf (config : UploadConfig) : string :=
  match EventsService.truthyString (urlPrefix config) with
  | Some prefix => prefix
  | None => ("/" ++ uploadsPath config ++ "/")%string
  end.

(** [s.replace(pattern, '')] for a string pattern: the first occurrence
    of the pattern is taken out. *)
Fixpoint dropChars (n : nat) (s : string) : string :=
  match n, s with
  | O, _ => s
  | S n', String _ s' => dropChars n' s'
  | S _, EmptyString => EmptyString
  end.

Fixpoint replaceFirstByEmpty (pattern s : string) : string :=
  if String.prefix pattern s then dropChars (String.length pattern) s
  else match s with
       | EmptyString => EmptyString
       | String c s' => String c (replaceFirstByEmpty pattern s')
       end.

Section App.

Variable publicDir : Path.

(** [app.publicPath(directory)]. *)
Definition publicPath (directory : string) : Path := join publicDir directory.

(** [uploadFile(file, config)]: what the call ends in and the disk left.
    [moved] tells whether [file.move] succeeds; its error is not caught. *)
Definition uploadFile (cuid : string) (moved : bool) (file : MultipartFile)
  (config : UploadConfig) (disk : Disk) : Outcome string * Disk :=
  match validateFileType file (allowedExtensions config) with
  | BadRequestException message => (BadRequestException message, disk)
  | MoveError => (MoveError, disk)
  | Returned _ =>
      let fileName := fileNameOf cuid file config in
      let uploadsPath' := publicPath (uploadsPath config) in
      if negb moved then (MoveError, disk)
      else
        let disk' := move (join uploadsPath' fileName) disk in
        match EventsService.truthyString (urlPrefix config) with
        | Some prefix => (Returned (prefix ++ fileName)%string, disk')
        | None =>
            (Returned ("/" ++ uploadsPath config ++ "/" ++ fileName)%string,
             disk')
        end
  end.

(** [deleteFile(filePath, config, entityId)]: the disk left.  It never
    throws. *)
Definition deleteFile (filePath : option string) (config : UploadConfig)
  (disk : Disk) : Disk :=
  match EventsService.truthyString filePath with
  | None => disk
  | Some filePath =>
      let pathPrefix := pathPrefixOf config in
      if String.prefix pathPrefix filePath then
        let fileName := replaceFirstByEmpty pathPrefix filePath in
        let fullPath := join (publicPath (uploadsPath config)) fileName in
        if joinEndsWithSlash (uploadsPath config) fileName then disk
        else unlink fullPath disk
      else disk
  end.

(** [replaceFile(file, config, oldFilePath)]. *)
Definition replaceFile (cuid : string) (moved : bool) (file : MultipartFile)
  (config : UploadConfig) (oldFilePath : option string) (disk : Disk)
  : Outcome string * Disk :=
  let disk :=
    match EventsService.truthyString oldFilePath with
    | Some old => deleteFile (Some old) config disk
    | None => disk
    end in
  uploadFile cuid moved file config disk.

End App.

End DriveService.

(** ** Vocabulary of the properties *)

(** The participation rows stored for a pair (user, event). *)
Definition rowsFor (u e : Z) (s : Store) : list EventUser.t :=
  filter (Lucid.same_pair u e) (event_users s).

Definition allFalse (r : EventUser.t) : bool :=
  negb (EventUser.isFavorite r) && negb (EventUser.hasJoined r).

Definition pairOf (r : EventUser.t) : Z * Z :=
  (EventUser.userId r, EventUser.eventId r).

(** The constraints the store itself keeps on event_users: the primary
    key is unique and was given out by the counter, and the pair
    (user_id, event_id) is unique. *)
Definition constraints (s : Store) : Prop :=
  NoDup (map EventUser.id (event_users s))
  /\ (forall r, In r (event_users s) -> EventUser.id r < next_event_user_id s)
  /\ NoDup (map pairOf (event_users s)).

(** A history of ledger calls, run one after the other; a call that throws
    leaves the store as it was. *)
Inductive Call : Type :=
| AddBookmark (now userId eventId : Z)
| RemoveBookmark (userId eventId : Z).

Definition stateAfter {A : Type} (s : Store) (r : Result (A * Store)) : Store :=
  match r with
  | Ok (_, s') => s'
  | Throw _ => s
  end.

Definition step (s : Store) (c : Call) : Store :=
  match c with
  | AddBookmark now u e => stateAfter s (BookmarksService.addBookmark now u e s)
  | RemoveBookmark u e => stateAfter s (BookmarksService.removeBookmark u e s)
  end.

Definition run (calls : list Call) (s : Store) : Store :=
  fold_left step calls s.

(** Case-insensitive substring: [c] occurs in [s] at some position, letter
    case apart. *)
Fixpoint prefixCi (c s : list ascii) : bool :=
  match c, s with
  | [], _ => true
  | _ :: _, [] => false
  | x :: c', y :: s' => Lucid.eq_ci y x && prefixCi c' s'
  end.

Fixpoint occursCi (c s : list ascii) : bool :=
  prefixCi c s || match s with [] => false | _ :: s' => occursCi c s' end.

Definition containsCi (c s : string) : bool :=
  occursCi (list_ascii_of_string c) (list_ascii_of_string s).

(** A string without a character that LIKE reads as more than itself. *)
Definition plainChar (x : ascii) : bool :=
  negb (Ascii.eqb x Lucid.percent) && negb (Ascii.eqb x Lucid.underscore)
  && negb (Ascii.eqb x Lucid.backslash).

Definition plain (c : string) : bool :=
  forallb plainChar (list_ascii_of_string c).


(** A filter value that is provided: present and not the empty string. *)
Definition provided (field : option string) (v : string) : Prop :=
  field = Some v /\ v <> EmptyString.


Definition latestFirst (a b : Event.t * EventUser.t) : Prop :=
  EventUser.createdAt (snd b) <= EventUser.createdAt (snd a).

(** The slice of a listing that page [page] of size [limit] holds, pages
    counted from 1. *)
Definition pageSlice {A : Type} (page limit : Z) (rows : list A) : list A :=
  firstn (Z.to_nat limit) (skipn (Z.to_nat ((page - 1) * limit)) rows).

(** No row of the pair (u, e) has both flags false. *)
Definition noAllFalse (u e : Z) (s : Store) : Prop :=
  forall r, In r (rowsFor u e s) -> allFalse r = false.

(** The constraints the store keeps between tables: the primary key of
    events is unique and every participation row points to a stored
    event. *)
Definition referentialIntegrity (s : Store) : Prop :=
  NoDup (map Event.id (events s))
  /\ forall r, In r (event_users s) ->
       exists ev, In ev (events s) /\ Event.id ev = EventUser.eventId r.

(** What the "joined" facet of the ledger holds: the rows with hasJoined,
    without their favorite flag. *)
Definition joinFacet (s : Store) : list (Z * Z * Z * Z) :=
  map (fun r => (EventUser.id r, EventUser.userId r, EventUser.eventId r,
                 EventUser.createdAt r))
      (filter EventUser.hasJoined (event_users s)).

(** The rows counted by [getBookmarkStats] for a user. *)
Definition favoriteOf (u : Z) (r : EventUser.t) : bool :=
  (EventUser.userId r =? u) && EventUser.isFavorite r.


(** A path in normal form: no segment is empty, '.' or '..', or holds a
    '/'.  On a disk of such paths a file has one name. *)
Definition normalSegment (name : string) : bool :=
  negb (String.eqb name "") && negb (String.eqb name ".")
  && negb (String.eqb name "..")
  && forallb (fun x => negb (Ascii.eqb x "/")) (list_ascii_of_string name).

Definition normalDisk (disk : DriveService.Disk) : bool :=
  forallb (forallb normalSegment) disk.

(** ** Sample data *)

Module Sample.

Definition alice : User.t := User.mk 1 "Alice" "alice@example.com".

Definition concert : Event.t :=
  Event.mk 1 "Rock night" "Toulouse" "concert" "rock" 19800 (Some 19801).

Definition expo : Event.t :=
  Event.mk 2 "Jazz in pictures" "Paris" "exhibition" "jazz" 19750 None.

(** One user, two events, no participation row. *)
Definition empty : Store := mkStore [alice] [concert; expo] [] 1.

(** Alice has joined and bookmarked the concert. *)
Definition joined : Store :=
  mkStore [alice] [concert; expo] [EventUser.mk 1 1 1 true true 1000] 2.

(** Alice bookmarked the concert first and the exhibition later. *)
Definition bookmarks : Store :=
  mkStore [alice] [concert; expo]
          [EventUser.mk 1 1 1 true true 1000;
           EventUser.mk 2 1 2 true false 2000] 3.

(** Alice bookmarked the exhibition only: the participation row has the
    id 1, the exhibition the id 2. *)
Definition oneBookmark : Store :=
  mkStore [alice] [concert; expo] [EventUser.mk 1 1 2 true false 2000] 2.

Definition history : list Call :=
  [AddBookmark 10 1 1; AddBookmark 11 1 1; RemoveBookmark 1 1;
   RemoveBookmark 1 1; AddBookmark 12 1 1].

(** Another request bookmarks the same pair and commits. *)
Definition concurrentAdd (s : Store) : Store :=
  stateAfter s (BookmarksService.addBookmark 4 1 1 s).

Definition noFilter : GetEventsOptions.t :=
  GetEventsOptions.mk None None None None None None None None.

Definition byCity (city : string) : GetEventsOptions.t :=
  GetEventsOptions.mk None None None None (Some city) None None None.




Definition artists : list Artist.t :=
  [Artist.mk 1 "Nina" "nina.png"; Artist.mk 2 "Miles" "miles.png"].

(** Another request removes Alice's bookmark of the exhibition and
    commits. *)
Definition concurrentRemove (s : Store) : Store :=
  stateAfter s (BookmarksService.removeBookmark 1 2 s).

(** The upload configuration of EventsService for event 7. *)
Definition bannerConfig : DriveService.UploadConfig :=
  DriveService.mkConfig "uploads/events" ["jpg"; "jpeg"; "png"; "webp"]%string
                        (Some "/uploads/events/"%string) "event" 7.

Definition publicDir : DriveService.Path := ["srv"; "app"; "public"]%string.

(** The banner of an earlier upload, at its normalised path. *)
Definition oldBanner : DriveService.Path :=
  ["srv"; "app"; "public"; "uploads"; "events"; "old.png"]%string.

Definition pngFile : DriveService.MultipartFile :=
  DriveService.mkFile (Some "png"%string).

Definition exeFile : DriveService.MultipartFile :=
  DriveService.mkFile (Some "exe"%string).

Definition page2of5 : GetEventsOptions.t :=
  GetEventsOptions.mk (Some 2) (Some 1) None None None None None (Some 1).

End Sample.

(** * Properties *)

(** ** Lists *)

Section ListFacts.
Context {A B : Type}.

Lemma find_is_head_of_filter (f : A -> bool) (l : list A) :
  find f l = hd_error (filter f l).
Proof.
  induction l as [|x l IH]; simpl; [reflexivity|].
  destruct (f x); simpl; auto.
Qed.

Lemma existsb_false_filter_nil (f : A -> bool) (l : list A) :
  existsb f l = false <-> filter f l = [].
Proof.
  induction l as [|x l IH]; simpl; [tauto|].
  destruct (f x); simpl; [split; discriminate|exact IH].
Qed.

Lemma NoDup_map_filter (key : A -> B) (keep : A -> bool) :
  forall rows : list A,
    NoDup (map key rows) -> NoDup (map key (filter keep rows)).
Proof.
  intros rows. induction rows as [|x rows IH]; simpl; intros H.
  - constructor.
  - inversion H as [|? ? Hx Hrest]; subst.
    destruct (keep x); simpl; [constructor|]; auto.
    intros Hin. apply Hx.
    apply in_map_iff in Hin. destruct Hin as [y [Hy Hin]].
    apply in_map_iff. exists y. split; [exact Hy|].
    apply filter_In in Hin. tauto.
Qed.

Lemma NoDup_map_injective_on (f : A -> B) (l : list A) (a b : A) :
  NoDup (map f l) -> In a l -> In b l -> f a = f b -> a = b.
Proof.
  induction l as [|x l IH]; simpl; intros H Ha Hb Hf; [contradiction|].
  inversion H as [|? ? Hx Hl]; subst.
  destruct Ha as [Ha|Ha], Hb as [Hb|Hb]; subst; auto.
  - exfalso. apply Hx. rewrite Hf. now apply in_map.
  - exfalso. apply Hx. rewrite <- Hf. now apply in_map.
Qed.

End ListFacts.

(** ** The store's constraints under the ledger's writes *)

Lemma same_pair_iff u e r :
  Lucid.same_pair u e r = true <-> pairOf r = (u, e).
Proof.
  unfold Lucid.same_pair, pairOf. rewrite andb_true_iff, !Z.eqb_eq.
  split; [intros [-> ->]; reflexivity|intros H; inversion H; auto].
Qed.

Lemma setFavorite_same v r :
  EventUser.isFavorite r = v -> Lucid.setFavorite v r = r.
Proof. destruct r; simpl; intros ->; reflexivity. Qed.

Lemma rowsFor_at_most_one u e s a b :
  constraints s -> In a (rowsFor u e s) -> In b (rowsFor u e s) -> a = b.
Proof.
  intros (_ & _ & Hp) Ha Hb.
  apply filter_In in Ha. apply filter_In in Hb.
  destruct Ha as [Ha Hpa], Hb as [Hb Hpb].
  apply same_pair_iff in Hpa. apply same_pair_iff in Hpb.
  eapply NoDup_map_injective_on; eauto. congruence.
Qed.

Lemma rowsFor_singleton u e s r :
  constraints s -> In r (rowsFor u e s) -> rowsFor u e s = [r].
Proof.
  intros Hc Hr.
  assert (Hnd : NoDup (rowsFor u e s)).
  { unfold rowsFor. apply NoDup_map_inv with (f := EventUser.id).
    apply NoDup_map_filter. apply Hc. }
  destruct (rowsFor u e s) as [|a [|b l]] eqn:E; simpl in Hr.
  - contradiction.
  - destruct Hr as [->|[]]. reflexivity.
  - exfalso.
    assert (a = b).
    { apply (rowsFor_at_most_one u e s); auto; rewrite E; simpl; auto. }
    subst. inversion Hnd; subst. simpl in *. tauto.
Qed.

Lemma rowsFor_length u e s :
  constraints s -> (List.length (rowsFor u e s) <= 1)%nat.
Proof.
  intros Hc. destruct (rowsFor u e s) as [|a l] eqn:E; simpl; [lia|].
  assert (H : rowsFor u e s = [a]).
  { apply rowsFor_singleton; auto. rewrite E. simpl; auto. }
  rewrite E in H. inversion H. simpl. lia.
Qed.

Lemma constraints_update k v s :
  constraints s -> constraints (Lucid.updateIsFavorite k v s).
Proof.
  intros (Hid & Hlt & Hp). unfold constraints, Lucid.updateIsFavorite; simpl.
  assert (Eid : forall l,
    map EventUser.id
        (map (fun r => if EventUser.id r =? k then Lucid.setFavorite v r else r) l)
    = map EventUser.id l).
  { intros l. rewrite map_map. apply map_ext. intros r.
    destruct (EventUser.id r =? k); reflexivity. }
  assert (Ep : forall l,
    map pairOf
        (map (fun r => if EventUser.id r =? k then Lucid.setFavorite v r else r) l)
    = map pairOf l).
  { intros l. rewrite map_map. apply map_ext. intros r.
    destruct (EventUser.id r =? k); reflexivity. }
  rewrite Eid, Ep. repeat split; auto.
  intros r Hr. apply in_map_iff in Hr. destruct Hr as [r0 [E Hr0]].
  specialize (Hlt r0 Hr0).
  destruct (EventUser.id r0 =? k); subst; simpl; auto.
Qed.

Lemma constraints_save row v s :
  constraints s -> constraints (Lucid.saveIsFavorite row v s).
Proof.
  intros H. unfold Lucid.saveIsFavorite.
  destruct (Bool.eqb _ _); auto using constraints_update.
Qed.

Lemma constraints_delete k s :
  constraints s -> constraints (Lucid.deleteEventUser k s).
Proof.
  intros (Hid & Hlt & Hp). unfold constraints, Lucid.deleteEventUser; simpl.
  repeat split; auto using NoDup_map_filter.
  intros r Hr. apply filter_In in Hr. apply Hlt. tauto.
Qed.

Lemma constraints_create now u e fav joined s row s' :
  constraints s ->
  Lucid.createEventUser now u e fav joined s = Ok (row, s') ->
  constraints s'.
Proof.
  intros (Hid & Hlt & Hp). unfold Lucid.createEventUser.
  destruct (existsb _ _) eqn:Ex; [discriminate|].
  destruct (Lucid.findUser s u); [|discriminate].
  destruct (Lucid.findEvent s e); [|discriminate].
  intros H; inversion H; subst; clear H.
  unfold constraints; simpl. rewrite !map_app; simpl.
  repeat split.
  - apply NoDup_app; auto.
    + constructor; [simpl; tauto|constructor].
    + intros a Ha [Hb|[]]. subst a.
      apply in_map_iff in Ha. destruct Ha as [r [E Hr]].
      specialize (Hlt r Hr). lia.
  - intros r Hr. apply in_app_iff in Hr. destruct Hr as [Hr|[<-|[]]].
    + specialize (Hlt r Hr). lia.
    + simpl. lia.
  - apply NoDup_app; auto.
    + constructor; [simpl; tauto|constructor].
    + intros a Ha [Hb|[]]. subst a.
      apply in_map_iff in Ha. destruct Ha as [r [E Hr]].
      assert (Hx : existsb (Lucid.same_pair u e) (event_users s) = true).
      { apply existsb_exists. exists r. split; auto.
        apply same_pair_iff. exact E. }
      congruence.
Qed.

Lemma constraints_step s c : constraints s -> constraints (step s c).
Proof.
  intros Hc. destruct c as [now u e|u e]; simpl.
  - unfold BookmarksService.addBookmark, BookmarksService.addBookmark_read.
    destruct (Lucid.findEvent s e); simpl; auto.
    destruct (Lucid.findUser s u); simpl; auto.
    destruct (Lucid.first _ _) as [row|]; simpl.
    + now apply constraints_save.
    + destruct (Lucid.createEventUser now u e true false s) as [[row s']|x] eqn:E;
        simpl; auto.
      eapply constraints_create; eauto.
  - unfold BookmarksService.removeBookmark.
    destruct (Lucid.first _ _) as [row|]; simpl; auto.
    destruct (EventUser.hasJoined row); simpl.
    + now apply constraints_save.
    + now apply constraints_delete.
Qed.

(** ** The rows of a pair under the ledger's writes *)

Lemma filter_filter_swap {A : Type} (p q : A -> bool) (l : list A) :
  filter p (filter q l) = filter q (filter p l).
Proof.
  induction l as [|x l IH]; simpl; [reflexivity|].
  destruct (p x) eqn:Hp, (q x) eqn:Hq; simpl; rewrite ?Hp, ?Hq, IH; reflexivity.
Qed.

Lemma rowsFor_update u e k v s :
  rowsFor u e (Lucid.updateIsFavorite k v s)
  = map (fun r => if EventUser.id r =? k then Lucid.setFavorite v r else r)
        (rowsFor u e s).
Proof.
  unfold rowsFor, Lucid.updateIsFavorite; simpl.
  rewrite filter_map_swap. f_equal. apply filter_ext. intros r.
  destruct (EventUser.id r =? k); reflexivity.
Qed.

Lemma rowsFor_delete u e k s :
  rowsFor u e (Lucid.deleteEventUser k s)
  = filter (fun r => negb (EventUser.id r =? k)) (rowsFor u e s).
Proof.
  unfold rowsFor, Lucid.deleteEventUser; simpl. apply filter_filter_swap.
Qed.

Lemma create_inversion now u e fav joined s row s' :
  Lucid.createEventUser now u e fav joined s = Ok (row, s') ->
  rowsFor u e s = []
  /\ row = EventUser.mk (next_event_user_id s) u e fav joined now
  /\ s' = mkStore (users s) (events s) (event_users s ++ [row])
                  (next_event_user_id s + 1).
Proof.
  unfold Lucid.createEventUser.
  destruct (existsb _ _) eqn:Ex; [discriminate|].
  destruct (Lucid.findUser s u); [|discriminate].
  destruct (Lucid.findEvent s e); [|discriminate].
  intros H; inversion H; subst. repeat split.
  now apply existsb_false_filter_nil.
Qed.

Lemma rowsFor_after_create now u e fav joined s row s' u' e' :
  Lucid.createEventUser now u e fav joined s = Ok (row, s') ->
  rowsFor u' e' s'
  = rowsFor u' e' s ++ (if Lucid.same_pair u' e' row then [row] else []).
Proof.
  intros H. apply create_inversion in H. destruct H as (_ & Hrow & ->).
  unfold rowsFor; simpl. rewrite filter_app. simpl.
  destruct (Lucid.same_pair u' e' row); reflexivity.
Qed.

Lemma row_of_id s a b :
  constraints s -> In a (event_users s) -> In b (event_users s) ->
  EventUser.id a = EventUser.id b -> a = b.
Proof.
  intros (Hid & _ & _). now apply NoDup_map_injective_on.
Qed.

Lemma rowsFor_in u e s r :
  In r (rowsFor u e s) <-> In r (event_users s) /\ pairOf r = (u, e).
Proof.
  unfold rowsFor. rewrite filter_In, same_pair_iff. tauto.
Qed.

(** An UPDATE through a row of the pair (u, e) leaves the rows of every
    other pair as they are. *)
Lemma rowsFor_update_other u e u' e' old v s :
  constraints s -> In old (rowsFor u e s) -> (u', e') <> (u, e) ->
  rowsFor u' e' (Lucid.updateIsFavorite (EventUser.id old) v s)
  = rowsFor u' e' s.
Proof.
  intros Hc Hold Hne. rewrite rowsFor_update.
  rewrite <- (map_id (rowsFor u' e' s)) at 2.
  apply map_ext_in. intros r Hr.
  destruct (EventUser.id r =? EventUser.id old) eqn:E; [|reflexivity].
  apply Z.eqb_eq in E. apply rowsFor_in in Hr. apply rowsFor_in in Hold.
  assert (r = old) by (apply (row_of_id s); tauto).
  subst. exfalso. apply Hne. destruct Hr, Hold. congruence.
Qed.

Lemma rowsFor_update_self u e old v s :
  constraints s -> In old (rowsFor u e s) ->
  rowsFor u e (Lucid.updateIsFavorite (EventUser.id old) v s)
  = [Lucid.setFavorite v old].
Proof.
  intros Hc Hold. rewrite rowsFor_update.
  rewrite (rowsFor_singleton u e s old Hc Hold). simpl.
  rewrite Z.eqb_refl. reflexivity.
Qed.

Lemma rowsFor_delete_self u e old s :
  constraints s -> In old (rowsFor u e s) ->
  rowsFor u e (Lucid.deleteEventUser (EventUser.id old) s) = [].
Proof.
  intros Hc Hold. rewrite rowsFor_delete.
  rewrite (rowsFor_singleton u e s old Hc Hold). simpl.
  rewrite Z.eqb_refl. reflexivity.
Qed.

Lemma rowsFor_delete_other u e u' e' old s :
  constraints s -> In old (rowsFor u e s) -> (u', e') <> (u, e) ->
  rowsFor u' e' (Lucid.deleteEventUser (EventUser.id old) s)
  = rowsFor u' e' s.
Proof.
  intros Hc Hold Hne. rewrite rowsFor_delete.
  apply forallb_filter_id. apply forallb_forall. intros r Hr.
  destruct (EventUser.id r =? EventUser.id old) eqn:E; [|reflexivity].
  apply Z.eqb_eq in E. apply rowsFor_in in Hr. apply rowsFor_in in Hold.
  assert (r = old) by (apply (row_of_id s); tauto).
  subst. exfalso. apply Hne. destruct Hr, Hold. congruence.
Qed.

Lemma first_of_pair u e s :
  Lucid.first (Lucid.same_pair u e) (event_users s) = hd_error (rowsFor u e s).
Proof. apply find_is_head_of_filter. Qed.

Lemma first_favorite_some u e s row :
  Lucid.first (fun r => Lucid.same_pair u e r && EventUser.isFavorite r)
              (event_users s) = Some row ->
  In row (rowsFor u e s) /\ EventUser.isFavorite row = true.
Proof.
  intros H. apply find_some in H. destruct H as [Hin H].
  apply andb_true_iff in H. destruct H as [Hp Hf].
  split; auto. apply filter_In. auto.
Qed.

Lemma first_favorite_none u e s :
  Lucid.first (fun r => Lucid.same_pair u e r && EventUser.isFavorite r)
              (event_users s) = None ->
  forall r, In r (rowsFor u e s) -> EventUser.isFavorite r = false.
Proof.
  intros H r Hr. apply filter_In in Hr. destruct Hr as [Hin Hp].
  pose proof (find_none _ _ H r Hin) as Hn. simpl in Hn.
  rewrite Hp in Hn. exact Hn.
Qed.

(** ** The participation ledger *)

Lemma noAllFalse_update_true u e k s :
  noAllFalse u e s -> noAllFalse u e (Lucid.updateIsFavorite k true s).
Proof.
  intros H r Hr. rewrite rowsFor_update in Hr.
  apply in_map_iff in Hr. destruct Hr as [r0 [E Hr0]].
  destruct (EventUser.id r0 =? k); subst; auto.
Qed.

Lemma noAllFalse_step u e s c :
  constraints s -> noAllFalse u e s -> noAllFalse u e (step s c).
Proof.
  intros Hc Hg. destruct c as [now u' e'|u' e']; simpl.
  - unfold BookmarksService.addBookmark, BookmarksService.addBookmark_read.
    destruct (Lucid.findEvent s e'); simpl; auto.
    destruct (Lucid.findUser s u'); simpl; auto.
    destruct (Lucid.first _ _) as [row|]; simpl.
    + unfold Lucid.saveIsFavorite. destruct (Bool.eqb _ _); auto.
      now apply noAllFalse_update_true.
    + destruct (Lucid.createEventUser now u' e' true false s)
        as [[row s']|x] eqn:E; simpl; auto.
      intros r Hr. rewrite (rowsFor_after_create _ _ _ _ _ _ _ _ u e E) in Hr.
      apply create_inversion in E. destruct E as (_ & Hrow & _).
      apply in_app_iff in Hr. destruct Hr as [Hr|Hr]; auto.
      destruct (Lucid.same_pair u e row); simpl in Hr; [|contradiction].
      destruct Hr as [<-|[]]. subst row. reflexivity.
  - unfold BookmarksService.removeBookmark.
    destruct (Lucid.first _ _) as [row|] eqn:F; simpl; auto.
    apply first_favorite_some in F. destruct F as [Hin Hfav].
    destruct (EventUser.hasJoined row) eqn:J; simpl.
    + unfold Lucid.saveIsFavorite. rewrite Hfav. simpl.
      intros r Hr. rewrite rowsFor_update in Hr.
      apply in_map_iff in Hr. destruct Hr as [r0 [E Hr0]].
      destruct (EventUser.id r0 =? EventUser.id row) eqn:I; subst; auto.
      apply Z.eqb_eq in I.
      assert (r0 = row).
      { apply (row_of_id s); auto.
        - apply rowsFor_in in Hr0. tauto.
        - apply rowsFor_in in Hin. tauto. }
      subst. unfold allFalse. simpl. rewrite J. reflexivity.
    + intros r Hr. rewrite rowsFor_delete in Hr.
      apply filter_In in Hr. apply Hg. tauto.
Qed.

Lemma ledger_invariant u e calls s :
  constraints s -> noAllFalse u e s ->
  constraints (run calls s) /\ noAllFalse u e (run calls s).
Proof.
  revert s. induction calls as [|c calls IH]; simpl; intros s Hc Hg; auto.
  apply IH; auto using constraints_step, noAllFalse_step.
Qed.

(** C1. Uniqueness and no all-false rows.  From a store that keeps its
    constraints and has no row for the pair (u, e), after any history of
    addBookmark and removeBookmark calls (on any users and events) at most
    one row is stored for (u, e), and no row stored for (u, e) has both
    isFavorite = false and hasJoined = false. *)
Theorem ledger_unique_and_never_all_false :
  forall (u e : Z) (s : Store) (calls : list Call),
    constraints s ->
    rowsFor u e s = [] ->
    (List.length (rowsFor u e (run calls s)) <= 1)%nat
    /\ forall r, In r (rowsFor u e (run calls s)) ->
         ~ (EventUser.isFavorite r = false /\ EventUser.hasJoined r = false).
Proof.
  intros u e s calls Hc Hnone.
  assert (Hg : noAllFalse u e s).
  { intros r Hr. rewrite Hnone in Hr. contradiction. }
  destruct (ledger_invariant u e calls s Hc Hg) as [Hc' Hg'].
  split.
  - now apply rowsFor_length.
  - intros r Hr [Hf Hj]. specialize (Hg' r Hr).
    unfold allFalse in Hg'. rewrite Hf, Hj in Hg'. discriminate.
Qed.

(** What a successful addBookmark does when the event and the user
    exist. *)
Lemma addBookmark_outcome :
  forall (now u e : Z) (s : Store),
    constraints s ->
    Lucid.findEvent s e <> None -> Lucid.findUser s u <> None ->
    exists row s',
      BookmarksService.addBookmark now u e s = Ok (row, s')
      /\ rowsFor u e s' = [row]
      /\ EventUser.isFavorite row = true
      /\ (forall old, In old (rowsFor u e s) ->
            row = Lucid.setFavorite true old
            /\ EventUser.hasJoined row = EventUser.hasJoined old
            /\ List.length (event_users s') = List.length (event_users s))
      /\ (rowsFor u e s = [] ->
            EventUser.hasJoined row = false
            /\ event_users s' = event_users s ++ [row])
      /\ (forall u' e', (u', e') <> (u, e) ->
            rowsFor u' e' s' = rowsFor u' e' s).
Proof.
  intros now u e s Hc Hev Husr.
  unfold BookmarksService.addBookmark, BookmarksService.addBookmark_read.
  destruct (Lucid.findEvent s e) as [ev|] eqn:Fe; [|congruence].
  destruct (Lucid.findUser s u) as [usr|] eqn:Fu; [|congruence].
  simpl. rewrite first_of_pair.
  destruct (rowsFor u e s) as [|old rest] eqn:R; simpl.
  - unfold Lucid.createEventUser.
    assert (Ex : existsb (Lucid.same_pair u e) (event_users s) = false)
      by now apply existsb_false_filter_nil.
    rewrite Ex, Fe, Fu.
    eexists; eexists; split; [reflexivity|].
    split; [|split; [reflexivity|split; [|split]]].
    + unfold rowsFor in *; simpl. rewrite filter_app, R. simpl.
      unfold Lucid.same_pair; simpl. rewrite !Z.eqb_refl. reflexivity.
    + intros o [].
    + intros _. split; reflexivity.
    + intros u' e' Hne. unfold rowsFor; simpl. rewrite filter_app; simpl.
      unfold Lucid.same_pair at 2; simpl.
      destruct (u =? u') eqn:Eu; destruct (e =? e') eqn:Ee; simpl;
        rewrite ?app_nil_r; auto.
      apply Z.eqb_eq in Eu, Ee. subst. congruence.
  - assert (Hold : In old (rowsFor u e s)) by (rewrite R; simpl; auto).
    assert (Hone : rowsFor u e s = [old]) by now apply rowsFor_singleton.
    assert (Honly : forall o, In o (old :: rest) -> o = old).
    { intros o Ho. rewrite <- R, Hone in Ho. destruct Ho as [<-|[]].
      reflexivity. }
    eexists; eexists; split; [reflexivity|].
    unfold Lucid.saveIsFavorite.
    destruct (EventUser.isFavorite old) eqn:Fav; simpl.
    + rewrite (setFavorite_same true old Fav).
      split; [congruence|split; [reflexivity|split; [|split]]].
      * intros o Ho. apply Honly in Ho. subst o.
         rewrite (setFavorite_same true old Fav). auto.
      * intros HR. discriminate.
      * reflexivity.
    + split; [now apply rowsFor_update_self|split; [reflexivity|split; [|split]]].
      * intros o Ho. apply Honly in Ho. subst o.
         split; [reflexivity|split; [reflexivity|]].
         simpl. apply length_map.
      * intros HR. discriminate.
      * intros u' e' Hne. now apply (rowsFor_update_other u e).
Qed.

(** C2. addBookmark: NotFound without the event or without the user;
    otherwise it succeeds, exactly one row is stored for the pair
    afterwards and that row is the one returned, with isFavorite = true;
    an existing row keeps its hasJoined (and everything but isFavorite), a
    created row has hasJoined = false and is the only row added; the rows
    of other pairs are untouched. *)
Theorem addBookmark_spec :
  forall (now u e : Z) (s : Store),
    constraints s ->
    (Lucid.findEvent s e = None \/ Lucid.findUser s u = None ->
       exists message,
         BookmarksService.addBookmark now u e s
         = Throw (NotFoundException message))
    /\ (Lucid.findEvent s e <> None -> Lucid.findUser s u <> None ->
        exists row s',
          BookmarksService.addBookmark now u e s = Ok (row, s')
          /\ rowsFor u e s' = [row]
          /\ EventUser.isFavorite row = true
          /\ (forall old, In old (rowsFor u e s) ->
                row = Lucid.setFavorite true old
                /\ EventUser.hasJoined row = EventUser.hasJoined old
                /\ List.length (event_users s') = List.length (event_users s))
          /\ (rowsFor u e s = [] ->
                EventUser.hasJoined row = false
                /\ event_users s' = event_users s ++ [row])
          /\ (forall u' e', (u', e') <> (u, e) ->
                rowsFor u' e' s' = rowsFor u' e' s)).
Proof.
  intros now u e s Hc. split.
  - unfold BookmarksService.addBookmark, BookmarksService.addBookmark_read.
    intros [H|H].
    + rewrite H. eexists; reflexivity.
    + destruct (Lucid.findEvent s e); [rewrite H|]; eexists; reflexivity.
  - now apply addBookmark_outcome.
Qed.

(** C3. removeBookmark never throws.  Without a favorite row for the pair
    it returns false and the store is unchanged; a favorite row that is
    joined is kept with isFavorite = false; a favorite row that is not
    joined is deleted; the result is true exactly when the store changed.
    The rows of other pairs are untouched. *)
Theorem removeBookmark_spec :
  forall (u e : Z) (s : Store),
    constraints s ->
    exists removed s',
      BookmarksService.removeBookmark u e s = Ok (removed, s')
      /\ ((forall r, In r (rowsFor u e s) -> EventUser.isFavorite r = false) ->
          removed = false /\ s' = s)
      /\ (forall r, In r (rowsFor u e s) ->
            EventUser.isFavorite r = true -> EventUser.hasJoined r = true ->
            removed = true
            /\ rowsFor u e s' = [Lucid.setFavorite false r]
            /\ List.length (event_users s') = List.length (event_users s))
      /\ (forall r, In r (rowsFor u e s) ->
            EventUser.isFavorite r = true -> EventUser.hasJoined r = false ->
            removed = true /\ rowsFor u e s' = [] /\ ~ In r (event_users s'))
      /\ (removed = true <-> s' <> s)
      /\ (forall u' e', (u', e') <> (u, e) ->
            rowsFor u' e' s' = rowsFor u' e' s).
Proof.
  intros u e s Hc. unfold BookmarksService.removeBookmark.
  destruct (Lucid.first _ _) as [row|] eqn:F.
  - apply first_favorite_some in F. destruct F as [Hin Hfav].
    assert (Honly : forall r, In r (rowsFor u e s) -> r = row).
    { intros r Hr. rewrite (rowsFor_singleton u e s row Hc Hin) in Hr.
      destruct Hr as [<-|[]]. reflexivity. }
    destruct (EventUser.hasJoined row) eqn:J.
    + unfold Lucid.saveIsFavorite. rewrite Hfav. simpl.
      eexists; eexists; split; [reflexivity|].
      assert (Hself := rowsFor_update_self u e row false s Hc Hin).
      split; [|split; [|split; [|split]]].
      * intros Hnone. rewrite (Hnone row Hin) in Hfav. discriminate.
      * intros r Hr _ _. apply Honly in Hr. subst r.
        split; [reflexivity|split; [assumption|]].
        simpl. apply length_map.
      * intros r Hr _ Hj. apply Honly in Hr. subst r. congruence.
      * split; [|reflexivity]. intros _ Heq. rewrite Heq in Hself.
        rewrite (rowsFor_singleton u e s row Hc Hin) in Hself.
        inversion Hself as [E]. apply (f_equal EventUser.isFavorite) in E.
        simpl in E. congruence.
      * intros u' e' Hne. now apply (rowsFor_update_other u e).
    + eexists; eexists; split; [reflexivity|].
      assert (Hself := rowsFor_delete_self u e row s Hc Hin).
      split; [|split; [|split; [|split]]].
      * intros Hnone. rewrite (Hnone row Hin) in Hfav. discriminate.
      * intros r Hr _ Hj. apply Honly in Hr. subst r. congruence.
      * intros r Hr _ _. apply Honly in Hr. subst r.
        split; [reflexivity|split; [assumption|]].
        intros Hin'. assert (Hr : In row (rowsFor u e
          (Lucid.deleteEventUser (EventUser.id row) s))).
        { apply rowsFor_in. split; auto. apply rowsFor_in in Hin. tauto. }
        rewrite Hself in Hr. contradiction.
      * split; [|reflexivity]. intros _ Heq. rewrite Heq in Hself.
        rewrite Hself in Hin. contradiction.
      * intros u' e' Hne. now apply (rowsFor_delete_other u e).
  - pose proof (first_favorite_none u e s F) as Hnone.
    eexists; eexists; split; [reflexivity|].
    split; [|split; [|split; [|split]]].
    + auto.
    + intros r Hr Hf _. rewrite (Hnone r Hr) in Hf. discriminate.
    + intros r Hr Hf _. rewrite (Hnone r Hr) in Hf. discriminate.
    + split; [discriminate|]. intros H. now contradiction H.
    + reflexivity.
Qed.

Lemma addBookmark_keeps_tables now u e s row s' :
  BookmarksService.addBookmark now u e s = Ok (row, s') ->
  users s' = users s /\ events s' = events s.
Proof.
  unfold BookmarksService.addBookmark, BookmarksService.addBookmark_read.
  destruct (Lucid.findEvent s e); simpl; [|discriminate].
  destruct (Lucid.findUser s u); simpl; [|discriminate].
  destruct (Lucid.first _ _) as [old|]; simpl.
  - intros H; inversion H; subst. unfold Lucid.saveIsFavorite.
    destruct (Bool.eqb _ _); auto.
  - intros H. apply create_inversion in H. destruct H as (_ & _ & ->). auto.
Qed.

(** C7. addBookmark is idempotent.  When the user and the event exist, the
    first call succeeds and a second call on the resulting store returns
    the same row and leaves the store exactly as the first call left it:
    one row for the pair, isFavorite = true, hasJoined as it was. *)
Theorem addBookmark_idempotent :
  forall (now1 now2 u e : Z) (s : Store),
    constraints s ->
    Lucid.findEvent s e <> None ->
    Lucid.findUser s u <> None ->
    exists row s1,
      BookmarksService.addBookmark now1 u e s = Ok (row, s1)
      /\ BookmarksService.addBookmark now2 u e s1 = Ok (row, s1)
      /\ rowsFor u e s1 = [row]
      /\ EventUser.isFavorite row = true
      /\ (forall old, In old (rowsFor u e s) ->
            EventUser.hasJoined row = EventUser.hasJoined old).
Proof.
  intros now1 now2 u e s Hc Hev Husr.
  destruct (addBookmark_outcome now1 u e s Hc Hev Husr)
    as (row & s1 & Hadd & Hrows & Hfav & Hold & _).
  exists row, s1. split; [assumption|].
  split; [|split; [assumption|split; [assumption|]]].
  - destruct (addBookmark_keeps_tables _ _ _ _ _ _ Hadd) as [Eu Ee].
    unfold BookmarksService.addBookmark, BookmarksService.addBookmark_read.
    unfold Lucid.findEvent, Lucid.findUser in *. rewrite Eu, Ee.
    destruct (find _ (events s)); [|congruence].
    destruct (find _ (users s)); [|congruence].
    simpl. rewrite first_of_pair, Hrows. simpl.
    unfold Lucid.saveIsFavorite. rewrite Hfav. simpl.
    now rewrite setFavorite_same.
  - intros old Ho. now apply Hold.
Qed.

(** C4 (as the code has it). When a row for the pair is committed by
    another request after addBookmark's reads found none, the INSERT is
    refused by the unique constraint and addBookmark throws that refusal:
    there is no second read and no update, and the controller answers 500
    with the store's error.  The store stays as the other request left it,
    and the row that request committed is the only one of the pair. *)
Theorem addBookmark_conflict_is_thrown :
  forall (now u e : Z) (others : Store -> Store) (s : Store),
    BookmarksService.addBookmark_read u e s = Ok None ->
    constraints (others s) ->
    rowsFor u e (others s) <> [] ->
    BookmarksService.addBookmark_interleaved now u e others s
    = Throw UniqueViolation
    /\ BookmarksController.respond
         (BookmarksService.addBookmark_interleaved now u e others s)
       = BookmarksController.status500 "Failed to bookmark event"
                                       UniqueViolation
    /\ stateAfter (others s)
         (BookmarksService.addBookmark_interleaved now u e others s)
       = others s
    /\ exists committed, rowsFor u e (others s) = [committed].
Proof.
  intros now u e others s Hread Hc Hrow.
  assert (E : BookmarksService.addBookmark_interleaved now u e others s
              = Throw UniqueViolation).
  { unfold BookmarksService.addBookmark_interleaved. rewrite Hread. simpl.
    unfold Lucid.createEventUser.
    destruct (existsb _ _) eqn:Ex; [reflexivity|].
    apply existsb_false_filter_nil in Ex. contradiction. }
  rewrite E. split; [reflexivity|]. split; [reflexivity|].
  split; [reflexivity|].
  destruct (rowsFor u e (others s)) as [|committed rest] eqn:R;
    [contradiction|].
  exists committed. rewrite <- R. apply rowsFor_singleton; [exact Hc|].
  rewrite R. now left.
Qed.

(** ** ORDER BY and pages *)

Lemma taken_is_member {A : Type} (x : A) :
  forall (n : nat) (l : list A), In x (firstn n l) -> In x l.
Proof.
  induction n as [|n IH]; intros [|y l]; simpl; try tauto.
  intros [->|H]; [now left|right; now apply IH].
Qed.

Lemma kept_is_member {A : Type} (x : A) :
  forall (n : nat) (l : list A), In x (skipn n l) -> In x l.
Proof.
  induction n as [|n IH]; intros [|y l]; simpl; try tauto.
  intros H. right. now apply IH.
Qed.

Section OrderBy.
Context {A : Type}.
Variable R : A -> A -> Prop.
Variable precedes : A -> A -> bool.
Hypothesis R_trans : forall a b c, R a b -> R b c -> R a c.
Hypothesis precedes_sound : forall a b, precedes a b = true -> R a b.
Hypothesis precedes_total : forall a b, precedes a b = false -> R b a.

Lemma insertBy_In x y l :
  In y (Lucid.insertBy precedes x l) <-> y = x \/ In y l.
Proof.
  induction l as [|z l IH]; simpl.
  - intuition.
  - destruct (precedes x z); simpl; [intuition|].
    rewrite IH. intuition.
Qed.

Lemma insertBy_sorted x l :
  StronglySorted R l -> StronglySorted R (Lucid.insertBy precedes x l).
Proof.
  induction l as [|z l IH]; simpl; intros Hs.
  - repeat constructor.
  - apply StronglySorted_inv in Hs. destruct Hs as [Hl Hz].
    destruct (precedes x z) eqn:E.
    + constructor; [constructor; auto|].
      constructor; auto.
      rewrite Forall_forall in *. eauto.
    + constructor; auto.
      rewrite Forall_forall in *. intros y Hy.
      apply insertBy_In in Hy. destruct Hy as [->|Hy]; auto.
Qed.

Lemma orderBy_In y l : In y (Lucid.orderBy precedes l) <-> In y l.
Proof.
  unfold Lucid.orderBy. induction l as [|x l IH]; simpl; [tauto|].
  rewrite insertBy_In, IH. intuition.
Qed.

Lemma orderBy_sorted l : StronglySorted R (Lucid.orderBy precedes l).
Proof.
  unfold Lucid.orderBy. induction l as [|x l IH]; simpl.
  - constructor.
  - now apply insertBy_sorted.
Qed.

Lemma skipn_sorted n l : StronglySorted R l -> StronglySorted R (skipn n l).
Proof.
  revert l. induction n as [|n IH]; intros [|x l] Hs; simpl; auto.
  apply IH. now apply StronglySorted_inv in Hs.
Qed.

Lemma firstn_sorted n l : StronglySorted R l -> StronglySorted R (firstn n l).
Proof.
  revert l. induction n as [|n IH]; intros [|x l] Hs; simpl;
    try constructor.
  - apply IH. now apply StronglySorted_inv in Hs.
  - apply StronglySorted_inv in Hs. destruct Hs as [_ Hx].
    rewrite Forall_forall in *. intros y Hy. apply Hx.
    eapply taken_is_member; eauto.
Qed.

End OrderBy.

Lemma insertBy_length {A : Type} (p : A -> A -> bool) x l :
  List.length (Lucid.insertBy p x l) = S (List.length l).
Proof.
  induction l as [|z l IH]; simpl; [reflexivity|].
  destruct (p x z); simpl; auto.
Qed.

Lemma orderBy_length {A : Type} (p : A -> A -> bool) l :
  List.length (Lucid.orderBy p l) = List.length l.
Proof.
  unfold Lucid.orderBy. induction l as [|x l IH]; simpl; [reflexivity|].
  now rewrite insertBy_length, IH.
Qed.

Lemma pageSlice_In {A : Type} page limit (rows : list A) x :
  In x (pageSlice page limit rows) -> In x rows.
Proof.
  unfold pageSlice. intros H. apply taken_is_member in H.
  now apply kept_is_member in H.
Qed.

(** What [paginate] returns when it returns: the slice of the page, or
    nothing when there are no rows at all. *)
Lemma paginate_inversion {A : Type} page perPage (rows : list A) pg :
  Lucid.paginate page perPage rows = Ok pg ->
  Lucid.all pg = pageSlice page perPage rows
  /\ Lucid.total pg = Z.of_nat (List.length rows)
  /\ Lucid.perPage pg = perPage
  /\ Lucid.currentPage pg = page
  /\ Lucid.isEmpty pg = match Lucid.all pg with [] => true | _ :: _ => false end.
Proof.
  unfold Lucid.paginate, Lucid.forPage, pageSlice.
  destruct (0 <? Z.of_nat (List.length rows)) eqn:T; simpl.
  - destruct ((perPage * (page - 1) <? 0) || (perPage <? 0)); simpl;
      [discriminate|].
    intros H; inversion H; subst; simpl.
    rewrite (Z.mul_comm (page - 1)). auto.
  - intros H; inversion H; subst; simpl.
    apply Z.ltb_ge in T. destruct rows; [|simpl in T; lia].
    rewrite skipn_nil, firstn_nil. auto.
Qed.

(** [paginate] returns for every page from 1 on and every limit from 0
    on. *)
Lemma paginate_returns {A : Type} page perPage (rows : list A) :
  1 <= page -> 0 <= perPage ->
  exists pg, Lucid.paginate page perPage rows = Ok pg.
Proof.
  intros Hp Hl. unfold Lucid.paginate, Lucid.forPage.
  destruct (0 <? _); simpl; [|eexists; reflexivity].
  assert (E1 : (perPage * (page - 1) <? 0) = false) by (apply Z.ltb_ge; nia).
  assert (E2 : (perPage <? 0) = false) by (apply Z.ltb_ge; lia).
  rewrite E1, E2. simpl. eexists; reflexivity.
Qed.

(** ** LIKE on a pattern %c% *)

Lemma like_star_ext (k1 k2 : list ascii -> bool) :
  (forall s, k1 s = k2 s) -> forall s, Lucid.like_star k1 s = Lucid.like_star k2 s.
Proof.
  intros H s. induction s as [|x s IH]; simpl; rewrite H; [reflexivity|].
  now rewrite IH.
Qed.

Lemma like_percent_last s : Lucid.like [Lucid.percent] s = true.
Proof.
  simpl. induction s as [|x s IH]; simpl; [reflexivity|exact IH].
Qed.

Lemma plainChar_inv x :
  plainChar x = true ->
  Ascii.eqb x Lucid.percent = false
  /\ Ascii.eqb x Lucid.underscore = false
  /\ Ascii.eqb x Lucid.backslash = false.
Proof.
  unfold plainChar. rewrite !andb_true_iff, !negb_true_iff. tauto.
Qed.

Lemma like_plain_prefix c :
  forallb plainChar c = true ->
  forall s, Lucid.like (c ++ [Lucid.percent]) s = prefixCi c s.
Proof.
  induction c as [|x c IH]; intros Hp s.
  - rewrite like_percent_last. destruct s; reflexivity.
  - simpl in Hp. apply andb_true_iff in Hp. destruct Hp as [Hx Hc].
    apply plainChar_inv in Hx. destruct Hx as (E1 & E2 & E3).
    change ((x :: c) ++ [Lucid.percent]) with (x :: (c ++ [Lucid.percent])).
    cbn [Lucid.like]. rewrite E1, E2, E3.
    destruct s as [|y s]; simpl; [reflexivity|].
    now rewrite IH.
Qed.

Lemma occursCi_star c s : occursCi c s = Lucid.like_star (prefixCi c) s.
Proof. induction s as [|y s IH]; simpl; [reflexivity|now rewrite IH]. Qed.

Lemma like_plain_contains c s :
  forallb plainChar c = true ->
  Lucid.like (Lucid.percent :: c ++ [Lucid.percent]) s = occursCi c s.
Proof.
  intros Hp. rewrite occursCi_star. cbn [Lucid.like]. simpl Ascii.eqb.
  apply like_star_ext. now apply like_plain_prefix.
Qed.

Lemma list_ascii_of_string_app a b :
  list_ascii_of_string (a ++ b)
  = (list_ascii_of_string a ++ list_ascii_of_string b)%list.
Proof. induction a as [|x a IH]; simpl; [reflexivity|now rewrite IH]. Qed.

(** For a value without [%], [_] and backslash, the pattern %value% is
    case-insensitive containment. *)
Lemma whereILike_plain c v :
  plain c = true ->
  Lucid.whereILike ("%" ++ c ++ "%") v = containsCi c v.
Proof.
  intros Hp. unfold Lucid.whereILike, containsCi.
  change ("%" ++ c ++ "%")%string with (String Lucid.percent (c ++ "%")).
  simpl list_ascii_of_string. rewrite list_ascii_of_string_app.
  now apply like_plain_contains.
Qed.

(** [containsCi] is containment of a block that equals the value once both
    are put in lower case. *)
Lemma prefixCi_iff c s :
  prefixCi c s = true <->
  exists mid post, s = (mid ++ post)%list
                   /\ map Lucid.lower mid = map Lucid.lower c.
Proof.
  revert s. induction c as [|x c IH]; intros s; simpl.
  - split; [intros _; exists [], s; auto|reflexivity].
  - destruct s as [|y s].
    + split; [discriminate|].
      intros (mid & post & E & Hm). destruct mid; [discriminate|discriminate].
    + unfold Lucid.eq_ci. rewrite andb_true_iff, Ascii.eqb_eq, IH. split.
      * intros (Hxy & mid & post & -> & Hm).
        exists (y :: mid), post. simpl. rewrite Hxy, Hm. auto.
      * intros (mid & post & E & Hm). destruct mid as [|z mid];
          [discriminate|]. simpl in E, Hm.
        injection E as -> ->. injection Hm as Hz Hm.
        split; [exact Hz|]. exists mid, post. auto.
Qed.

Lemma occursCi_iff c s :
  occursCi c s = true <->
  exists pre mid post, s = (pre ++ mid ++ post)%list
                       /\ map Lucid.lower mid = map Lucid.lower c.
Proof.
  induction s as [|y s IH]; simpl.
  - rewrite orb_false_r, prefixCi_iff. split.
    + intros (mid & post & E & Hm). exists [], mid, post. auto.
    + intros (pre & mid & post & E & Hm).
      destruct pre; [|discriminate]. exists mid, post. auto.
  - rewrite orb_true_iff, IH, prefixCi_iff. split.
    + intros [(mid & post & E & Hm)|(pre & mid & post & E & Hm)].
      * exists [], mid, post. auto.
      * exists (y :: pre), mid, post. simpl. rewrite E. auto.
    + intros (pre & mid & post & E & Hm). destruct pre as [|z pre].
      * left. exists mid, post. auto.
      * right. simpl in E. inversion E; subst. exists pre, mid, post. auto.
Qed.

(** ** The event listing *)

Lemma truthyString_provided field v :
  provided field v -> EventsService.truthyString field = Some v.
Proof.
  intros [-> Hne]. simpl. destruct (String.eqb v "") eqn:E; [|reflexivity].
  apply String.eqb_eq in E. contradiction.
Qed.


Lemma selectedEvents_In options s ev :
  In ev (EventsService.selectedEvents options s) <->
  In ev (events s)
  /\ EventsService.selects (EventsService.buildQuery options) ev = true.
Proof.
  unfold EventsService.selectedEvents.
  rewrite orderBy_In, filter_In. tauto.
Qed.


Lemma preload_event s uid ev :
  EventsService.event (EventsService.preload s uid ev) = ev.
Proof.
  unfold EventsService.preload.
  destruct (EventsService.truthyNumber uid); reflexivity.
Qed.

Lemma map_event_preload s uid l :
  map EventsService.event (map (EventsService.preload s uid) l) = l.
Proof.
  rewrite map_map. rewrite <- (map_id l) at 2.
  apply map_ext. apply preload_event.
Qed.

(** The events of the returned page are the page's slice of the ordered
    selection. *)
Lemma getAll_events options s pg :
  EventsService.getAll options s = Ok pg ->
  map EventsService.event (Lucid.all pg)
  = pageSlice (EventsService.effectivePage options)
              (EventsService.safeLimit options)
              (EventsService.selectedEvents options s).
Proof.
  unfold EventsService.getAll. intros H.
  apply paginate_inversion in H. destruct H as (Hall & _).
  rewrite Hall. unfold pageSlice.
  rewrite skipn_map, firstn_map, map_event_preload. reflexivity.
Qed.



Lemma buildQuery_ignores_userId pg lim ty sub ci sd ed uid uid' :
  EventsService.buildQuery (GetEventsOptions.mk pg lim ty sub ci sd ed uid)
  = EventsService.buildQuery (GetEventsOptions.mk pg lim ty sub ci sd ed uid').
Proof. reflexivity. Qed.

(** The listing returns for every page from 1 on and every page size
    from 0 on; its total is the number of stored events that the query
    selects. *)
Lemma getAll_returns options s :
  1 <= EventsService.effectivePage options ->
  0 <= EventsService.safeLimit options ->
  exists pg,
    EventsService.getAll options s = Ok pg
    /\ Lucid.total pg
       = Z.of_nat (List.length
                     (filter (EventsService.selects
                                (EventsService.buildQuery options))
                             (events s))).
Proof.
  intros Hp Hl. unfold EventsService.getAll.
  destruct (paginate_returns (EventsService.effectivePage options)
              (EventsService.safeLimit options)
              (map (EventsService.preload s (GetEventsOptions.userId options))
                   (EventsService.selectedEvents options s)) Hp Hl)
    as [pg H].
  exists pg. split; [exact H|].
  apply paginate_inversion in H. destruct H as (_ & Htot & _).
  rewrite Htot, length_map. unfold EventsService.selectedEvents.
  now rewrite orderBy_length.
Qed.

(** C10. At [getAll] an empty string in type, subtype or city is the same
    as the field left out: the two calls return the same result on every
    store, whatever the other options are.  It is no error: for a page
    from 1 on and a page size from 0 on the call returns a page, and the
    total it reports is the number of stored events that the query
    without that field selects.  With the three of them empty and no date
    bound the total is the number of stored events, and when these fit on
    page 1 the page holds every stored event and nothing else. *)
Theorem getAll_empty_string_is_absent :
  forall (page limit : option Z) (type subtype city : option string)
         (startDate endDate : option JsDate) (userId : option Z) (s : Store),
    let options := fun type subtype city =>
      GetEventsOptions.mk page limit type subtype city
                          startDate endDate userId in
    let count := fun options =>
      Z.of_nat (List.length
                  (filter (EventsService.selects
                             (EventsService.buildQuery options))
                          (events s))) in
    let allEmpty :=
      GetEventsOptions.mk page limit (Some EmptyString) (Some EmptyString)
                          (Some EmptyString) None None userId in
    EventsService.getAll (options (Some EmptyString) subtype city) s
    = EventsService.getAll (options None subtype city) s
    /\ EventsService.getAll (options type (Some EmptyString) city) s
       = EventsService.getAll (options type None city) s
    /\ EventsService.getAll (options type subtype (Some EmptyString)) s
       = EventsService.getAll (options type subtype None) s
    /\ (1 <= EventsService.effectivePage allEmpty ->
        0 <= EventsService.safeLimit allEmpty ->
        (exists pg,
           EventsService.getAll (options (Some EmptyString) subtype city) s
           = Ok pg
           /\ Lucid.total pg = count (options None subtype city))
        /\ (exists pg,
              EventsService.getAll (options type (Some EmptyString) city) s
              = Ok pg
              /\ Lucid.total pg = count (options type None city))
        /\ (exists pg,
              EventsService.getAll (options type subtype (Some EmptyString)) s
              = Ok pg
              /\ Lucid.total pg = count (options type subtype None))
        /\ exists pg,
             EventsService.getAll allEmpty s = Ok pg
             /\ Lucid.total pg = Z.of_nat (List.length (events s))
             /\ (EventsService.effectivePage allEmpty = 1 ->
                 Z.of_nat (List.length (events s))
                 <= EventsService.safeLimit allEmpty ->
                 forall ev, In ev (map EventsService.event (Lucid.all pg))
                            <-> In ev (events s))).
Proof.
  intros page limit type subtype city startDate endDate userId s
    options count allEmpty.
  split; [reflexivity|]. split; [reflexivity|]. split; [reflexivity|].
  intros Hp Hl.
  split; [exact (getAll_returns (options None subtype city) s Hp Hl)|].
  split; [exact (getAll_returns (options type None city) s Hp Hl)|].
  split; [exact (getAll_returns (options type subtype None) s Hp Hl)|].
  destruct (getAll_returns allEmpty s Hp Hl) as (pg & H & Htot).
  assert (Hall : filter (EventsService.selects
                           (EventsService.buildQuery allEmpty)) (events s)
                 = events s).
  { apply forallb_filter_id. apply forallb_forall. reflexivity. }
  exists pg. split; [exact H|]. rewrite Htot, Hall. split; [reflexivity|].
  intros Hone Hfit ev. rewrite (getAll_events allEmpty s pg H), Hone.
  unfold pageSlice. change (Z.to_nat ((1 - 1) * _)) with 0%nat.
  rewrite skipn_O, firstn_all2.
  - rewrite selectedEvents_In. split; [tauto|].
    intros Hin. split; [exact Hin|reflexivity].
  - unfold EventsService.selectedEvents. rewrite orderBy_length, Hall. lia.
Qed.

(** C8. Whenever the controller answers with data, a total of 0 comes with
    isEmpty = true and isEmpty = true comes with an empty data array; and
    when no stored event satisfies the filters the answer is the success
    response with data = [], total = 0 and isEmpty = true, whatever the
    page and the limit are. *)
Theorem handle_meta_consistent :
  forall (queryParams : GetEventsOptions.t) (authUserId : option Z)
         (s : Store),
    match GetEventsController.handle queryParams authUserId s with
    | GetEventsController.ok _ data meta =>
        (GetEventsController.total meta = 0 ->
           GetEventsController.isEmpty meta = true)
        /\ (GetEventsController.isEmpty meta = true -> data = [])
    | GetEventsController.internalServerError _ _ => True
    end
    /\ ((forall ev, In ev (events s) ->
           EventsService.selects (EventsService.buildQuery queryParams) ev
           = false) ->
        exists meta,
          GetEventsController.handle queryParams authUserId s
          = GetEventsController.ok "Events retrieved successfully" [] meta
          /\ GetEventsController.total meta = 0
          /\ GetEventsController.isEmpty meta = true).
Proof.
  intros [pg lim ty sub ci sd ed uid] auth s.
  unfold GetEventsController.handle. cbn [GetEventsOptions.page
    GetEventsOptions.limit GetEventsOptions.type GetEventsOptions.subtype
    GetEventsOptions.city GetEventsOptions.startDate GetEventsOptions.endDate].
  split.
  - destruct (EventsService.getAll _ s) as [p|x] eqn:E; [|exact I].
    unfold EventsService.getAll in E. apply paginate_inversion in E.
    destruct E as (Hall & Htot & _ & _ & Hemp). simpl. split.
    + intros H0. rewrite Hemp, Hall. rewrite Htot in H0.
      destruct (map _ _); [|simpl in H0; lia].
      unfold pageSlice. now rewrite skipn_nil, firstn_nil.
    + rewrite Hemp. destruct (Lucid.all p); [reflexivity|discriminate].
  - intros Hnone.
    assert (Hsel : EventsService.selectedEvents
              (GetEventsOptions.mk pg lim ty sub ci sd ed auth) s = []).
    { unfold EventsService.selectedEvents.
      rewrite (buildQuery_ignores_userId pg lim ty sub ci sd ed auth uid).
      assert (Hf : filter (EventsService.selects (EventsService.buildQuery
                (GetEventsOptions.mk pg lim ty sub ci sd ed uid))) (events s)
              = []).
      { apply existsb_false_filter_nil.
        destruct (existsb _ _) eqn:Ex; [|reflexivity].
        apply existsb_exists in Ex. destruct Ex as [ev [Hin Hs]].
        rewrite (Hnone ev Hin) in Hs. discriminate. }
      rewrite Hf. reflexivity. }
    unfold EventsService.getAll. rewrite Hsel. simpl.
    eexists. split; [reflexivity|]. split; reflexivity.
Qed.

(** ** The bookmarks listing *)

Lemma joinEventUsers_In s ev r :
  In (ev, r) (BookmarksService.joinEventUsers s) <->
  In ev (events s) /\ In r (event_users s)
  /\ EventUser.eventId r = Event.id ev.
Proof.
  unfold BookmarksService.joinEventUsers. rewrite in_flat_map. split.
  - intros [ev' [Hev H]]. apply in_map_iff in H.
    destruct H as [r' [E Hr]]. inversion E; subst.
    apply filter_In in Hr. rewrite Z.eqb_eq in Hr. tauto.
  - intros (Hev & Hr & E). exists ev. split; auto.
    apply in_map_iff. exists r. split; auto.
    apply filter_In. rewrite Z.eqb_eq. tauto.
Qed.

Lemma userBookmarkRows_In u s ev r :
  In (ev, r) (BookmarksService.userBookmarkRows u s) <->
  In ev (events s) /\ In r (event_users s)
  /\ EventUser.eventId r = Event.id ev
  /\ EventUser.userId r = u /\ EventUser.isFavorite r = true.
Proof.
  unfold BookmarksService.userBookmarkRows.
  rewrite orderBy_In, filter_In, joinEventUsers_In. simpl.
  rewrite andb_true_iff, Z.eqb_eq. tauto.
Qed.

Lemma userBookmarkRows_sorted u s :
  StronglySorted latestFirst (BookmarksService.userBookmarkRows u s).
Proof.
  unfold BookmarksService.userBookmarkRows.
  apply orderBy_sorted; unfold latestFirst.
  - intros a b c. lia.
  - intros a b H. apply Z.leb_le in H. exact H.
  - intros a b H. apply Z.leb_gt in H. lia.
Qed.

(** The models of the bookmarks listing are the joined rows of the user's
    favorites, each with the participation row's id in the place of the
    event's. *)
Lemma bookmarkListing_In u s m :
  In m (BookmarksService.bookmarkListing u s) <->
  exists ev r,
    In ev (events s) /\ In r (event_users s)
    /\ EventUser.eventId r = Event.id ev
    /\ EventUser.userId r = u /\ EventUser.isFavorite r = true
    /\ m = BookmarksService.hydrateEvent (ev, r).
Proof.
  unfold BookmarksService.bookmarkListing. rewrite in_map_iff. split.
  - intros [[ev r] [E H]]. apply userBookmarkRows_In in H.
    exists ev, r. intuition.
  - intros (ev & r & H). exists (ev, r). split; [intuition|].
    apply userBookmarkRows_In. tauto.
Qed.

Lemma bookmarkListing_length u s :
  List.length (BookmarksService.bookmarkListing u s)
  = List.length (BookmarksService.userBookmarkRows u s).
Proof. unfold BookmarksService.bookmarkListing. apply length_map. Qed.

(** C9 (the code at the failing input). Alice has bookmarked the
    exhibition and nothing else; the participation row has the id 1, the
    exhibition the id 2.  getUserBookmarks returns one model: it has the
    exhibition's title, city, type, subtype and dates, and the id 1, which
    is the id of the participation row and, in the table of events, the id
    of the concert, an event that Alice has not bookmarked.  The
    exhibition as it is stored is not in the listing. *)
Theorem getUserBookmarks_carries_participation_id :
  BookmarksService.isBookmarked 1 2 Sample.oneBookmark = true
  /\ BookmarksService.isBookmarked 1 1 Sample.oneBookmark = false
  /\ Lucid.findEvent Sample.oneBookmark 1 = Some Sample.concert
  /\ exists pg,
       BookmarksService.getUserBookmarks 1 None None Sample.oneBookmark
       = Ok pg
       /\ Lucid.all pg
          = [Event.mk 1 "Jazz in pictures" "Paris" "exhibition" "jazz"
                      19750 None]
       /\ ~ In Sample.expo (Lucid.all pg)
       /\ forall m, In m (Lucid.all pg) -> Event.id m <> Event.id Sample.expo.
Proof.
  split; [reflexivity|]. split; [reflexivity|]. split; [reflexivity|].
  eexists. split; [reflexivity|]. split; [reflexivity|]. split.
  - intros [H|[]]. discriminate H.
  - intros m [<-|[]]. discriminate.
Qed.

(** ** The properties on the sample data *)

Lemma constraints_empty : constraints Sample.empty.
Proof.
  unfold constraints; simpl. repeat split; try constructor.
  intros r [].
Qed.

Lemma constraints_joined : constraints Sample.joined.
Proof.
  unfold constraints; simpl. repeat split.
  - constructor; [simpl; tauto|constructor].
  - intros r [<-|[]]. simpl. lia.
  - constructor; [simpl; tauto|constructor].
Qed.

Lemma ledger_unique_and_never_all_false_witness :
  constraints Sample.empty
  /\ rowsFor 1 1 Sample.empty = []
  /\ (List.length (rowsFor 1 1 (run Sample.history Sample.empty)) <= 1)%nat
  /\ forall r, In r (rowsFor 1 1 (run Sample.history Sample.empty)) ->
       ~ (EventUser.isFavorite r = false /\ EventUser.hasJoined r = false).
Proof.
  split; [exact constraints_empty|]. split; [reflexivity|].
  apply (ledger_unique_and_never_all_false 1 1 Sample.empty Sample.history).
  - exact constraints_empty.
  - reflexivity.
Defined.

Lemma addBookmark_spec_witness :
  constraints Sample.joined
  /\ Lucid.findEvent Sample.joined 1 <> None
  /\ Lucid.findUser Sample.joined 1 <> None
  /\ exists row s',
       BookmarksService.addBookmark 10 1 1 Sample.joined = Ok (row, s')
       /\ rowsFor 1 1 s' = [row]
       /\ EventUser.isFavorite row = true.
Proof.
  split; [exact constraints_joined|].
  split; [discriminate|]. split; [discriminate|].
  destruct (addBookmark_spec 10 1 1 Sample.joined constraints_joined)
    as [_ H].
  destruct H as (row & s' & Hadd & Hrows & Hfav & _);
    [discriminate|discriminate|].
  exists row, s'. auto.
Defined.

Lemma removeBookmark_spec_witness :
  constraints Sample.joined
  /\ exists removed s',
       BookmarksService.removeBookmark 1 1 Sample.joined = Ok (removed, s')
       /\ (removed = true <-> s' <> Sample.joined).
Proof.
  split; [exact constraints_joined|].
  destruct (removeBookmark_spec 1 1 Sample.joined constraints_joined)
    as (removed & s' & Hrem & _ & _ & _ & Hiff & _).
  exists removed, s'. auto.
Defined.

Lemma addBookmark_idempotent_witness :
  constraints Sample.empty
  /\ Lucid.findEvent Sample.empty 1 <> None
  /\ Lucid.findUser Sample.empty 1 <> None
  /\ exists row s1,
       BookmarksService.addBookmark 10 1 1 Sample.empty = Ok (row, s1)
       /\ BookmarksService.addBookmark 11 1 1 s1 = Ok (row, s1).
Proof.
  split; [exact constraints_empty|].
  split; [discriminate|]. split; [discriminate|].
  destruct (addBookmark_idempotent 10 11 1 1 Sample.empty constraints_empty)
    as (row & s1 & H1 & H2 & _); [discriminate|discriminate|].
  exists row, s1. auto.
Defined.

Lemma addBookmark_conflict_is_thrown_witness :
  BookmarksService.addBookmark_read 1 1 Sample.empty = Ok None
  /\ constraints (Sample.concurrentAdd Sample.empty)
  /\ rowsFor 1 1 (Sample.concurrentAdd Sample.empty) <> []
  /\ BookmarksService.addBookmark_interleaved
       5 1 1 Sample.concurrentAdd Sample.empty
     = Throw UniqueViolation
  /\ rowsFor 1 1 (Sample.concurrentAdd Sample.empty)
     = [EventUser.mk 1 1 1 true false 4].
Proof.
  assert (Hc : constraints (Sample.concurrentAdd Sample.empty)).
  { apply (constraints_step Sample.empty (AddBookmark 4 1 1)).
    exact constraints_empty. }
  split; [reflexivity|]. split; [exact Hc|]. split; [discriminate|].
  destruct (addBookmark_conflict_is_thrown 5 1 1 Sample.concurrentAdd
              Sample.empty) as (Hthrow & _ & _ & committed & Hrows).
  - reflexivity.
  - exact Hc.
  - discriminate.
  - split; [exact Hthrow|]. reflexivity.
Defined.

(** C4, as stated, fails: the row of the pair is committed after the reads
    of addBookmark found none, and the call ends in the store's
    unique-constraint error, not in a row with isFavorite = true. *)
Lemma addBookmark_conflict_counterexample :
  BookmarksService.addBookmark_read 1 1 Sample.empty = Ok None
  /\ rowsFor 1 1 (Sample.concurrentAdd Sample.empty)
     = [EventUser.mk 1 1 1 true false 4]
  /\ BookmarksService.addBookmark_interleaved
       5 1 1 Sample.concurrentAdd Sample.empty
     = Throw UniqueViolation
  /\ ~ (exists row s',
          BookmarksService.addBookmark_interleaved
            5 1 1 Sample.concurrentAdd Sample.empty = Ok (row, s')
          /\ EventUser.isFavorite row = true).
Proof.
  split; [reflexivity|]. split; [reflexivity|]. split; [reflexivity|].
  intros (row & s' & H & _). discriminate H.
Qed.




Lemma getAll_empty_string_is_absent_witness :
  exists pg,
    EventsService.getAll
      (GetEventsOptions.mk None None (Some EmptyString) (Some EmptyString)
                           (Some EmptyString) None None None) Sample.empty
    = Ok pg
    /\ Lucid.total pg = 2
    /\ forall ev, In ev (map EventsService.event (Lucid.all pg))
                  <-> In ev (events Sample.empty).
Proof.
  destruct (getAll_empty_string_is_absent None None None None None None None
              None Sample.empty) as (_ & _ & _ & H).
  destruct H as (_ & _ & _ & pg & Hpg & Htot & Hmem);
    [cbv; discriminate|cbv; discriminate|].
  exists pg. split; [exact Hpg|]. split; [rewrite Htot; reflexivity|].
  apply Hmem; [reflexivity|cbv; discriminate].
Defined.

Lemma handle_meta_consistent_witness :
  (forall ev, In ev (events Sample.empty) ->
     EventsService.selects
       (EventsService.buildQuery (Sample.byCity "NoSuchCity")) ev = false)
  /\ exists meta,
       GetEventsController.handle (Sample.byCity "NoSuchCity") None
                                  Sample.empty
       = GetEventsController.ok "Events retrieved successfully" [] meta
       /\ GetEventsController.total meta = 0
       /\ GetEventsController.isEmpty meta = true.
Proof.
  assert (Hnone : forall ev, In ev (events Sample.empty) ->
            EventsService.selects
              (EventsService.buildQuery (Sample.byCity "NoSuchCity")) ev
            = false).
  { intros ev [<-|[<-|[]]]; reflexivity. }
  split; [exact Hnone|].
  destruct (handle_meta_consistent (Sample.byCity "NoSuchCity") None
              Sample.empty) as [_ H].
  exact (H Hnone).
Defined.

(** * Further properties of the ledger *)

Lemma isBookmarked_iff u e s :
  BookmarksService.isBookmarked u e s = true <->
  exists r, In r (rowsFor u e s) /\ EventUser.isFavorite r = true.
Proof.
  unfold BookmarksService.isBookmarked.
  destruct (Lucid.first _ _) as [row|] eqn:F.
  - apply first_favorite_some in F. split; [|reflexivity].
    intros _. exists row. exact F.
  - split; [discriminate|]. intros [r [Hr Hf]].
    rewrite (first_favorite_none u e s F r Hr) in Hf. discriminate.
Qed.

Lemma saveIsFavorite_clean row v s :
  EventUser.isFavorite row = v -> Lucid.saveIsFavorite row v s = s.
Proof.
  intros <-. unfold Lucid.saveIsFavorite. now rewrite Bool.eqb_reflx.
Qed.

Lemma saveIsFavorite_dirty row v s :
  EventUser.isFavorite row = negb v ->
  Lucid.saveIsFavorite row v s
  = Lucid.updateIsFavorite (EventUser.id row) v s.
Proof.
  intros H. unfold Lucid.saveIsFavorite. rewrite H. now destruct v.
Qed.

Lemma store_eq (a b : Store) :
  users a = users b -> events a = events b ->
  event_users a = event_users b ->
  next_event_user_id a = next_event_user_id b -> a = b.
Proof. destruct a, b; simpl; intros; subst; reflexivity. Qed.

(** With a unique primary key, the table splits around a stored row: no
    other row has its id. *)
Lemma split_at_row s old :
  constraints s -> In old (event_users s) ->
  exists before after,
    event_users s = before ++ old :: after
    /\ forall r, In r (before ++ after) ->
         (EventUser.id r =? EventUser.id old) = false.
Proof.
  intros (Hid & _ & _) Hin.
  destruct (in_split _ _ Hin) as (before & after & E).
  exists before, after. split; [exact E|].
  intros r Hr. apply Z.eqb_neq. intros Heq.
  rewrite E, map_app in Hid. simpl in Hid.
  apply NoDup_remove_2 in Hid. apply Hid.
  rewrite <- map_app, <- Heq. now apply in_map.
Qed.

Lemma map_update_elsewhere k v l :
  (forall r, In r l -> (EventUser.id r =? k) = false) ->
  map (fun r => if EventUser.id r =? k then Lucid.setFavorite v r else r) l = l.
Proof.
  intros H. rewrite <- (map_id l) at 2. apply map_ext_in.
  intros r Hr. now rewrite (H r Hr).
Qed.

Lemma filter_delete_elsewhere k l :
  (forall r, In r l -> (EventUser.id r =? k) = false) ->
  filter (fun r => negb (EventUser.id r =? k)) l = l.
Proof.
  intros H. apply forallb_filter_id. apply forallb_forall.
  intros r Hr. now rewrite (H r Hr).
Qed.

Lemma update_at_row s old v before after :
  event_users s = before ++ old :: after ->
  (forall r, In r (before ++ after) ->
     (EventUser.id r =? EventUser.id old) = false) ->
  event_users (Lucid.updateIsFavorite (EventUser.id old) v s)
  = before ++ Lucid.setFavorite v old :: after.
Proof.
  intros E H. unfold Lucid.updateIsFavorite; simpl. rewrite E, map_app; simpl.
  rewrite Z.eqb_refl.
  rewrite !map_update_elsewhere; auto;
    intros r Hr; apply H, in_or_app; auto.
Qed.

Lemma delete_at_row s old before after :
  event_users s = before ++ old :: after ->
  (forall r, In r (before ++ after) ->
     (EventUser.id r =? EventUser.id old) = false) ->
  event_users (Lucid.deleteEventUser (EventUser.id old) s) = before ++ after.
Proof.
  intros E H. unfold Lucid.deleteEventUser; simpl.
  rewrite E, filter_app; simpl. rewrite Z.eqb_refl. simpl.
  rewrite !filter_delete_elsewhere; auto;
    intros r Hr; apply H, in_or_app; auto.
Qed.

(** The outcome of addBookmark, case by case, without any assumption on
    the store. *)
Lemma addBookmark_cases now u e s row s' :
  BookmarksService.addBookmark now u e s = Ok (row, s') ->
  (rowsFor u e s = []
   /\ row = EventUser.mk (next_event_user_id s) u e true false now
   /\ s' = mkStore (users s) (events s) (event_users s ++ [row])
                   (next_event_user_id s + 1))
  \/ (exists old rest,
        rowsFor u e s = old :: rest
        /\ row = Lucid.setFavorite true old
        /\ s' = Lucid.saveIsFavorite old true s).
Proof.
  unfold BookmarksService.addBookmark, BookmarksService.addBookmark_read.
  destruct (Lucid.findEvent s e); simpl; [|discriminate].
  destruct (Lucid.findUser s u); simpl; [|discriminate].
  rewrite first_of_pair.
  destruct (rowsFor u e s) as [|old rest] eqn:R; simpl.
  - intros H. left. apply create_inversion in H. rewrite R in H.
    destruct H as (_ & Hrow & Hs). auto.
  - intros H. inversion H; subst. right. exists old, rest. auto.
Qed.

(** X1. After a successful addBookmark the pair is bookmarked. *)
Theorem isBookmarked_after_addBookmark :
  forall (now u e : Z) (s s' : Store) (row : EventUser.t),
    BookmarksService.addBookmark now u e s = Ok (row, s') ->
    BookmarksService.isBookmarked u e s' = true.
Proof.
  intros now u e s s' row H. apply isBookmarked_iff.
  apply addBookmark_cases in H.
  destruct H as [(R & Hrow & ->)|(old & rest & R & Hrow & ->)].
  - exists row. split; [|subst row; reflexivity].
    apply rowsFor_in. simpl. split; [apply in_or_app; simpl; auto|].
    subst row. reflexivity.
  - assert (Hold : In old (rowsFor u e s)) by (rewrite R; simpl; auto).
    unfold Lucid.saveIsFavorite.
    destruct (EventUser.isFavorite old) eqn:Fav; simpl.
    + exists old. auto.
    + exists (Lucid.setFavorite true old). split; [|reflexivity].
      rewrite rowsFor_update. apply in_map_iff. exists old.
      rewrite Z.eqb_refl. auto.
Qed.

(** X2. After removeBookmark, whatever it returned, the pair is not
    bookmarked, and a second removeBookmark returns false and leaves the
    store as it is. *)
Theorem removeBookmark_then_not_bookmarked :
  forall (u e : Z) (s s' : Store) (removed : bool),
    constraints s ->
    BookmarksService.removeBookmark u e s = Ok (removed, s') ->
    BookmarksService.isBookmarked u e s' = false
    /\ BookmarksService.removeBookmark u e s' = Ok (false, s').
Proof.
  intros u e s s' removed Hc H.
  assert (Hnone : forall r, In r (rowsFor u e s') ->
                    EventUser.isFavorite r = false).
  { unfold BookmarksService.removeBookmark in H.
    destruct (Lucid.first _ _) as [row|] eqn:F.
    - apply first_favorite_some in F. destruct F as [Hin Hfav].
      destruct (EventUser.hasJoined row); inversion H; subst; clear H.
      + unfold Lucid.saveIsFavorite. rewrite Hfav. simpl.
        rewrite (rowsFor_update_self u e row false s Hc Hin).
        intros r [<-|[]]. reflexivity.
      + rewrite (rowsFor_delete_self u e row s Hc Hin). intros r [].
    - inversion H; subst. now apply first_favorite_none. }
  assert (Hfirst : Lucid.first
            (fun r => Lucid.same_pair u e r && EventUser.isFavorite r)
            (event_users s') = None).
  { destruct (Lucid.first _ _) as [row|] eqn:F; [|reflexivity].
    apply first_favorite_some in F. destruct F as [Hin Hfav].
    rewrite (Hnone row Hin) in Hfav. discriminate. }
  unfold BookmarksService.isBookmarked, BookmarksService.removeBookmark.
  rewrite Hfirst. auto.
Qed.

(** X3. Bookmarking a pair that has no row and removing the bookmark
    again gives back the participation table as it was; only the id
    counter has moved on. *)
Theorem addBookmark_then_removeBookmark :
  forall (now u e : Z) (s s1 : Store) (row : EventUser.t),
    constraints s ->
    rowsFor u e s = [] ->
    BookmarksService.addBookmark now u e s = Ok (row, s1) ->
    BookmarksService.removeBookmark u e s1
    = Ok (true, mkStore (users s) (events s) (event_users s)
                        (next_event_user_id s + 1)).
Proof.
  intros now u e s s1 row Hc Hnone H.
  apply addBookmark_cases in H.
  destruct H as [(_ & Hrow & ->)|(old & rest & R & _)];
    [|rewrite R in Hnone; discriminate].
  unfold BookmarksService.removeBookmark, Lucid.first. simpl.
  assert (Hfind : find (fun r => Lucid.same_pair u e r && EventUser.isFavorite r)
                       (event_users s ++ [row]) = Some row).
  { rewrite find_is_head_of_filter, filter_app.
    assert (E : filter (fun r => Lucid.same_pair u e r && EventUser.isFavorite r)
                       (event_users s) = []).
    { apply existsb_false_filter_nil.
      destruct (existsb _ _) eqn:Ex; [|reflexivity].
      apply existsb_exists in Ex. destruct Ex as [r [Hin Hp]].
      apply andb_true_iff in Hp. destruct Hp as [Hp _].
      assert (Hr : In r (rowsFor u e s)) by (apply filter_In; auto).
      rewrite Hnone in Hr. contradiction. }
    rewrite E. subst row. simpl. unfold Lucid.same_pair. simpl.
    rewrite !Z.eqb_refl. reflexivity. }
  rewrite Hfind. subst row. simpl.
  unfold Lucid.deleteEventUser. simpl. rewrite filter_app. simpl.
  rewrite Z.eqb_refl. simpl. rewrite app_nil_r.
  rewrite filter_delete_elsewhere; [reflexivity|].
  intros r Hr. destruct Hc as (_ & Hlt & _). specialize (Hlt r Hr).
  apply Z.eqb_neq. lia.
Qed.

(** X4. Removing the bookmark of a row that is also joined and
    bookmarking the pair again gives back the very same store. *)
Theorem removeBookmark_then_addBookmark :
  forall (now u e : Z) (s : Store) (r : EventUser.t),
    constraints s ->
    Lucid.findEvent s e <> None ->
    Lucid.findUser s u <> None ->
    In r (rowsFor u e s) ->
    EventUser.isFavorite r = true ->
    EventUser.hasJoined r = true ->
    exists s1,
      BookmarksService.removeBookmark u e s = Ok (true, s1)
      /\ rowsFor u e s1 = [Lucid.setFavorite false r]
      /\ BookmarksService.addBookmark now u e s1 = Ok (r, s).
Proof.
  intros now u e s r Hc Hev Husr Hin Hfav Hj.
  assert (Hstored : In r (event_users s)) by (apply rowsFor_in in Hin; tauto).
  destruct (split_at_row s r Hc Hstored) as (before & after & E & Hother).
  exists (Lucid.updateIsFavorite (EventUser.id r) false s).
  assert (Hself := rowsFor_update_self u e r false s Hc Hin).
  split; [|split; [exact Hself|]].
  - unfold BookmarksService.removeBookmark.
    destruct (Lucid.first _ _) as [row|] eqn:F.
    + apply first_favorite_some in F. destruct F as [Hrow _].
      rewrite (rowsFor_singleton u e s r Hc Hin) in Hrow.
      destruct Hrow as [<-|[]]. rewrite Hj.
      unfold Lucid.saveIsFavorite. rewrite Hfav. reflexivity.
    + rewrite (first_favorite_none u e s F r Hin) in Hfav. discriminate.
  - unfold BookmarksService.addBookmark, BookmarksService.addBookmark_read.
    change (Lucid.findEvent (Lucid.updateIsFavorite (EventUser.id r) false s) e)
      with (Lucid.findEvent s e).
    change (Lucid.findUser (Lucid.updateIsFavorite (EventUser.id r) false s) u)
      with (Lucid.findUser s u).
    destruct (Lucid.findEvent s e); [|congruence].
    destruct (Lucid.findUser s u); [|congruence].
    unfold bind. rewrite first_of_pair, Hself.
    unfold BookmarksService.addBookmark_write, hd_error.
    assert (Hr : Lucid.setFavorite true (Lucid.setFavorite false r) = r).
    { destruct r; simpl in *; subst; reflexivity. }
    rewrite Hr. unfold Lucid.saveIsFavorite. simpl. do 2 f_equal.
    assert (E1 := update_at_row s r false before after E Hother).
    assert (E2 := update_at_row _ (Lucid.setFavorite false r) true
                    before after E1 Hother).
    rewrite Hr in E2.
    apply store_eq; try reflexivity. rewrite E. exact E2.
Qed.

(** ** Bookmark counts *)

Lemma getBookmarkStats_count u s :
  BookmarksService.getBookmarkStats u s
  = Z.of_nat (List.length (filter (favoriteOf u) (event_users s))).
Proof. reflexivity. Qed.

Lemma not_bookmarked_without_favorite u e s :
  (forall r, In r (rowsFor u e s) -> EventUser.isFavorite r = false) ->
  BookmarksService.isBookmarked u e s = false.
Proof.
  intros H. destruct (BookmarksService.isBookmarked u e s) eqn:B; [|reflexivity].
  apply isBookmarked_iff in B. destruct B as [r [Hr Hf]].
  rewrite (H r Hr) in Hf. discriminate.
Qed.

Lemma favoriteOf_other_user u u' r :
  EventUser.userId r = u -> u' <> u -> forall v,
  favoriteOf u' (Lucid.setFavorite v r) = false.
Proof.
  intros Hu Hne v. unfold favoriteOf. simpl. rewrite Hu.
  apply andb_false_iff. left. apply Z.eqb_neq. congruence.
Qed.

Lemma rowsFor_user u e s r : In r (rowsFor u e s) -> EventUser.userId r = u.
Proof. intros H. apply rowsFor_in in H. destruct H as [_ H]. now inversion H. Qed.

(** X5. A successful addBookmark raises the user's bookmark count by one
    when the pair was not bookmarked and leaves it as it is when it was;
    the counts of other users do not move. *)
Theorem getBookmarkStats_after_addBookmark :
  forall (now u e : Z) (s s' : Store) (row : EventUser.t),
    constraints s ->
    BookmarksService.addBookmark now u e s = Ok (row, s') ->
    BookmarksService.getBookmarkStats u s'
    = BookmarksService.getBookmarkStats u s
      + (if BookmarksService.isBookmarked u e s then 0 else 1)
    /\ forall u', u' <> u ->
         BookmarksService.getBookmarkStats u' s'
         = BookmarksService.getBookmarkStats u' s.
Proof.
  intros now u e s s' row Hc H. rewrite !getBookmarkStats_count.
  apply addBookmark_cases in H.
  destruct H as [(R & Hrow & ->)|(old & rest & R & Hrow & ->)].
  - rewrite not_bookmarked_without_favorite
      by (intros r Hr; rewrite R in Hr; contradiction).
    simpl. split.
    + rewrite filter_app, length_app. subst row. unfold favoriteOf at 2.
      simpl. rewrite Z.eqb_refl. simpl. lia.
    + intros u' Hne. rewrite !getBookmarkStats_count. simpl.
      rewrite filter_app. subst row. unfold favoriteOf at 2. simpl.
      assert (E : (u =? u') = false) by (apply Z.eqb_neq; congruence).
      rewrite E. simpl. now rewrite app_nil_r.
  - assert (Hold : In old (rowsFor u e s)) by (rewrite R; simpl; auto).
    assert (Hu := rowsFor_user u e s old Hold).
    destruct (EventUser.isFavorite old) eqn:Fav.
    + rewrite (saveIsFavorite_clean old true s Fav).
      assert (B : BookmarksService.isBookmarked u e s = true).
      { apply isBookmarked_iff. exists old. auto. }
      rewrite B. split; [lia|reflexivity].
    + rewrite (saveIsFavorite_dirty old true s Fav).
      rewrite not_bookmarked_without_favorite.
      2:{ intros r Hr. rewrite (rowsFor_singleton u e s old Hc Hold) in Hr.
          destruct Hr as [<-|[]]. exact Fav. }
      assert (Hstored : In old (event_users s))
        by (apply rowsFor_in in Hold; tauto).
      destruct (split_at_row s old Hc Hstored) as (before & after & E & Ho).
      split.
      * rewrite (update_at_row s old true before after E Ho), E.
        assert (F1 : favoriteOf u old = false)
          by (unfold favoriteOf; now rewrite Fav, andb_false_r).
        assert (F2 : favoriteOf u (Lucid.setFavorite true old) = true)
          by (unfold favoriteOf; simpl; now rewrite Hu, Z.eqb_refl).
        rewrite !filter_app. simpl. rewrite F1, F2.
        rewrite !length_app. simpl. lia.
      * intros u' Hne. rewrite !getBookmarkStats_count.
        rewrite (update_at_row s old true before after E Ho), E.
        rewrite !filter_app. simpl.
        rewrite (favoriteOf_other_user u u' old Hu Hne true).
        assert (F : favoriteOf u' old = false).
        { unfold favoriteOf. now rewrite Fav, andb_false_r. }
        now rewrite F.
Qed.

(** X6. removeBookmark lowers the user's bookmark count by one exactly
    when it returns true; the counts of other users do not move. *)
Theorem getBookmarkStats_after_removeBookmark :
  forall (u e : Z) (s s' : Store) (removed : bool),
    constraints s ->
    BookmarksService.removeBookmark u e s = Ok (removed, s') ->
    BookmarksService.getBookmarkStats u s'
    = BookmarksService.getBookmarkStats u s - (if removed then 1 else 0)
    /\ forall u', u' <> u ->
         BookmarksService.getBookmarkStats u' s'
         = BookmarksService.getBookmarkStats u' s.
Proof.
  intros u e s s' removed Hc H. unfold BookmarksService.removeBookmark in H.
  destruct (Lucid.first _ _) as [row|] eqn:F.
  - apply first_favorite_some in F. destruct F as [Hin Hfav].
    assert (Hu := rowsFor_user u e s row Hin).
    assert (Hstored : In row (event_users s))
      by (apply rowsFor_in in Hin; tauto).
    destruct (split_at_row s row Hc Hstored) as (before & after & E & Ho).
    assert (Fu : favoriteOf u row = true)
      by (unfold favoriteOf; now rewrite Hu, Z.eqb_refl, Hfav).
    destruct (EventUser.hasJoined row); injection H as <- <-;
      rewrite !getBookmarkStats_count.
    + rewrite (saveIsFavorite_dirty row false s Hfav).
      rewrite (update_at_row s row false before after E Ho), E. split.
      * assert (F2 : favoriteOf u (Lucid.setFavorite false row) = false)
          by (unfold favoriteOf; simpl; apply andb_false_r).
        rewrite !filter_app. simpl. rewrite Fu, F2.
        rewrite !length_app. simpl. lia.
      * intros u' Hne. rewrite !getBookmarkStats_count.
        rewrite (update_at_row s row false before after E Ho), E.
        rewrite !filter_app. simpl.
        rewrite (favoriteOf_other_user u u' row Hu Hne false).
        assert (F : favoriteOf u' row = false).
        { unfold favoriteOf. apply andb_false_iff. left.
          apply Z.eqb_neq. congruence. }
        now rewrite F.
    + rewrite (delete_at_row s row before after E Ho), E. split.
      * rewrite !filter_app. simpl. rewrite Fu.
        rewrite !length_app. simpl. lia.
      * intros u' Hne. rewrite !getBookmarkStats_count.
        rewrite (delete_at_row s row before after E Ho), E.
        rewrite !filter_app. simpl.
        assert (F : favoriteOf u' row = false).
        { unfold favoriteOf. apply andb_false_iff. left.
          apply Z.eqb_neq. congruence. }
        now rewrite F.
  - injection H as <- <-. split; [lia|reflexivity].
Qed.

(** ** The bookmark count and the bookmarks listing *)

Lemma list_sum_map_add {A : Type} (f g : A -> nat) (l : list A) :
  list_sum (map (fun x => (f x + g x)%nat) l)
  = (list_sum (map f l) + list_sum (map g l))%nat.
Proof. induction l as [|x l IH]; simpl; [reflexivity|]. rewrite IH. lia. Qed.

Lemma list_sum_map_zero {A : Type} (l : list A) :
  list_sum (map (fun _ => O) l) = O.
Proof. induction l as [|x l IH]; simpl; auto. Qed.

(** A stored key is the id of exactly one event. *)
Lemma no_event_with_id (evs : list Event.t) (k : Z) :
  ~ In k (map Event.id evs) ->
  list_sum (map (fun ev => if k =? Event.id ev then 1%nat else O) evs) = O.
Proof.
  induction evs as [|x evs IH]; simpl; intros Hn; [reflexivity|].
  destruct (k =? Event.id x) eqn:E.
  - apply Z.eqb_eq in E. exfalso. apply Hn. left. congruence.
  - apply IH. tauto.
Qed.

Lemma one_event_per_id (evs : list Event.t) (k : Z) :
  NoDup (map Event.id evs) ->
  In k (map Event.id evs) ->
  list_sum (map (fun ev => if k =? Event.id ev then 1%nat else O) evs) = 1%nat.
Proof.
  induction evs as [|x evs IH]; simpl; intros Hnd Hin; [contradiction|].
  inversion Hnd as [|? ? Hx Hrest]; subst.
  destruct (k =? Event.id x) eqn:E.
  - apply Z.eqb_eq in E. subst k.
    now rewrite (no_event_with_id evs (Event.id x) Hx).
  - apply IH; auto. destruct Hin as [Hin|Hin]; [|exact Hin].
    subst k. rewrite Z.eqb_refl in E. discriminate.
Qed.

Lemma length_filter_flat_map {A B : Type} (Q : B -> bool) (f : A -> list B)
  (l : list A) :
  List.length (filter Q (flat_map f l))
  = list_sum (map (fun x => List.length (filter Q (f x))) l).
Proof.
  induction l as [|x l IH]; simpl; [reflexivity|].
  now rewrite filter_app, length_app, IH.
Qed.

(** Under referential integrity the join neither loses nor repeats a
    participation row. *)
Lemma join_keeps_count (P : EventUser.t -> bool) (s : Store) :
  referentialIntegrity s ->
  List.length (filter (fun j => P (snd j)) (BookmarksService.joinEventUsers s))
  = List.length (filter P (event_users s)).
Proof.
  intros [Hnd Hfk]. unfold BookmarksService.joinEventUsers.
  rewrite length_filter_flat_map.
  revert Hfk. generalize (event_users s) as rows.
  induction rows as [|r rows IH]; intros Hrows.
  - simpl. apply list_sum_map_zero.
  - assert (IH' := IH (fun x Hx => Hrows x (or_intror Hx))). clear IH.
    rewrite (map_ext _
      (fun ev : Event.t =>
         ((if (EventUser.eventId r =? Event.id ev)%Z
           then (if P r then 1 else 0) else 0)
          + List.length
              (filter (fun j => P (snd j))
                 (map (fun r0 => (ev, r0))
                    (filter (fun r0 => (EventUser.eventId r0 =? Event.id ev)%Z)
                            rows))))%nat)).
    2:{ intros ev. simpl.
        destruct (EventUser.eventId r =? Event.id ev); simpl;
          [destruct (P r)|]; reflexivity. }
    rewrite list_sum_map_add, IH'. simpl.
    destruct (P r); simpl.
    + rewrite (one_event_per_id (events s) (EventUser.eventId r) Hnd);
        [reflexivity|].
      destruct (Hrows r (or_introl eq_refl)) as [ev [Hev Hid]].
      rewrite <- Hid. now apply in_map.
    + erewrite map_ext; [rewrite list_sum_map_zero; reflexivity|].
      intros ev. simpl. now destruct (_ =? _).
Qed.

(** X7. Under referential integrity the total of the bookmarks listing is
    the count that getBookmarkStats gives, for every page and limit for
    which the listing returns. *)
Theorem getUserBookmarks_total_is_getBookmarkStats :
  forall (u : Z) (page limit : option Z) (s : Store)
         (pg : Lucid.Paginator Event.t),
    referentialIntegrity s ->
    BookmarksService.getUserBookmarks u page limit s = Ok pg ->
    Lucid.total pg = BookmarksService.getBookmarkStats u s.
Proof.
  intros u page limit s pg Hri H.
  unfold BookmarksService.getUserBookmarks in H.
  apply paginate_inversion in H. destruct H as (_ & Htot & _).
  rewrite Htot, bookmarkListing_length, getBookmarkStats_count. f_equal.
  unfold BookmarksService.userBookmarkRows. rewrite orderBy_length.
  apply (join_keeps_count (favoriteOf u) s Hri).
Qed.

(** X8. Under referential integrity a pair is bookmarked exactly when
    the user's bookmarks listing holds the model made of the pair's
    favorite row and its event: the event's title, city, type, subtype
    and dates under the id of the participation row.  Every model of the
    listing has the id of one of the user's favorite rows. *)
Theorem isBookmarked_iff_listed :
  forall (u e : Z) (s : Store),
    referentialIntegrity s ->
    (BookmarksService.isBookmarked u e s = true <->
     exists ev r,
       In ev (events s) /\ Event.id ev = e
       /\ In r (rowsFor u e s) /\ EventUser.isFavorite r = true
       /\ In (BookmarksService.hydrateEvent (ev, r))
             (BookmarksService.bookmarkListing u s))
    /\ (forall m, In m (BookmarksService.bookmarkListing u s) ->
          exists r, In r (event_users s)
                    /\ EventUser.userId r = u
                    /\ EventUser.isFavorite r = true
                    /\ Event.id m = EventUser.id r).
Proof.
  intros u e s [_ Hfk]. split.
  - rewrite isBookmarked_iff. split.
    + intros [r [Hr Hfav]]. pose proof Hr as Hrow.
      apply rowsFor_in in Hr. destruct Hr as [Hin Hp].
      unfold pairOf in Hp. injection Hp as Hu He.
      destruct (Hfk r Hin) as [ev [Hev Hid]].
      exists ev, r. split; [exact Hev|]. split; [congruence|].
      split; [exact Hrow|]. split; [exact Hfav|].
      apply bookmarkListing_In. exists ev, r. auto 10.
    + intros (ev & r & _ & _ & Hr & Hfav & _). exists r. auto.
  - intros m Hm. apply bookmarkListing_In in Hm.
    destruct Hm as (ev & r & _ & Hr & _ & Hu & Hfav & ->).
    exists r. auto.
Qed.

(** ** What the ledger never touches *)

Lemma joinFacet_update k v s :
  joinFacet (Lucid.updateIsFavorite k v s) = joinFacet s.
Proof.
  unfold joinFacet, Lucid.updateIsFavorite. simpl.
  rewrite filter_map_swap, map_map.
  erewrite filter_ext.
  2:{ intros r. destruct (EventUser.id r =? k); reflexivity. }
  apply map_ext. intros r. destruct (EventUser.id r =? k); reflexivity.
Qed.

Lemma joinFacet_step s c : constraints s -> joinFacet (step s c) = joinFacet s.
Proof.
  intros Hc. destruct c as [now u e|u e]; simpl.
  - destruct (BookmarksService.addBookmark now u e s) as [[row s']|x] eqn:H;
      simpl; [|reflexivity].
    apply addBookmark_cases in H.
    destruct H as [(_ & Hrow & ->)|(old & rest & _ & _ & ->)].
    + unfold joinFacet. simpl. rewrite filter_app. subst row. simpl.
      now rewrite app_nil_r.
    + unfold Lucid.saveIsFavorite. destruct (Bool.eqb _ _); [reflexivity|].
      apply joinFacet_update.
  - unfold BookmarksService.removeBookmark.
    destruct (Lucid.first _ _) as [row|] eqn:F; simpl; [|reflexivity].
    apply first_favorite_some in F. destruct F as [Hin Hfav].
    destruct (EventUser.hasJoined row) eqn:J; simpl.
    + unfold Lucid.saveIsFavorite. destruct (Bool.eqb _ _); [reflexivity|].
      apply joinFacet_update.
    + assert (Hstored : In row (event_users s))
        by (apply rowsFor_in in Hin; tauto).
      destruct (split_at_row s row Hc Hstored) as (before & after & E & Ho).
      unfold joinFacet.
      rewrite (delete_at_row s row before after E Ho), E.
      rewrite !filter_app. simpl. now rewrite J.
Qed.

Lemma tables_step s c :
  users (step s c) = users s /\ events (step s c) = events s.
Proof.
  destruct c as [now u e|u e]; simpl.
  - destruct (BookmarksService.addBookmark now u e s) as [[row s']|x] eqn:H;
      simpl; [|auto].
    now apply addBookmark_keeps_tables in H.
  - unfold BookmarksService.removeBookmark.
    destruct (Lucid.first _ _) as [row|]; simpl; auto.
    destruct (EventUser.hasJoined row); simpl; auto.
    unfold Lucid.saveIsFavorite. destruct (Bool.eqb _ _); auto.
Qed.

(** X9. No history of addBookmark and removeBookmark calls touches the
    joined facet or the other tables: the rows with hasJoined = true are
    the same rows afterwards (same id, user, event and creation time, none
    added, none removed, in the same order), and the tables of users and
    of events are unchanged. *)
Theorem ledger_leaves_joined_rows_alone :
  forall (calls : list Call) (s : Store),
    constraints s ->
    joinFacet (run calls s) = joinFacet s
    /\ users (run calls s) = users s
    /\ events (run calls s) = events s.
Proof.
  induction calls as [|c calls IH]; intros s Hc; simpl; [auto|].
  destruct (IH (step s c) (constraints_step s c Hc)) as (Hj & Hu & He).
  destruct (tables_step s c) as [Hu' He'].
  rewrite Hj, Hu, He, (joinFacet_step s c Hc). auto.
Qed.

(** ** The bookmarks controller *)

Lemma addBookmark_succeeds now u e s :
  Lucid.findEvent s e <> None -> Lucid.findUser s u <> None ->
  exists row s',
    BookmarksService.addBookmark now u e s = Ok (row, s')
    /\ EventUser.isFavorite row = true
    /\ pairOf row = (u, e).
Proof.
  intros Hev Husr.
  unfold BookmarksService.addBookmark, BookmarksService.addBookmark_read.
  destruct (Lucid.findEvent s e) as [ev|] eqn:Fe; [|congruence].
  destruct (Lucid.findUser s u) as [usr|] eqn:Fu; [|congruence].
  simpl. destruct (Lucid.first _ _) as [old|] eqn:F; simpl.
  - eexists; eexists. split; [reflexivity|]. split; [reflexivity|].
    apply find_some in F. destruct F as [_ F].
    now apply same_pair_iff in F.
  - unfold Lucid.createEventUser.
    assert (Ex : existsb (Lucid.same_pair u e) (event_users s) = false).
    { destruct (existsb _ _) eqn:Ex; [|reflexivity].
      apply existsb_exists in Ex. destruct Ex as [r [Hin Hp]].
      rewrite (find_none _ _ F r Hin) in Hp. discriminate. }
    rewrite Ex, Fe, Fu. eexists; eexists. repeat split.
Qed.

(** X10. POST /bookmarks answers 404 exactly when the event is not
    stored, 500 with the service's 'User not found' when the event is
    stored and the user is not, and 201 with a favorite row of the pair
    when both are stored. *)
Theorem store_status :
  forall (now u e : Z) (s : Store),
    (Lucid.findEvent s e = None ->
       BookmarksController.store now u e s
       = BookmarksController.status404 "Event not found")
    /\ (Lucid.findEvent s e <> None -> Lucid.findUser s u = None ->
          BookmarksController.store now u e s
          = BookmarksController.status500 "Failed to bookmark event"
              (NotFoundException "User not found"))
    /\ (Lucid.findEvent s e <> None -> Lucid.findUser s u <> None ->
          exists row,
            BookmarksController.store now u e s
            = BookmarksController.status201 "Event bookmarked successfully" row
            /\ EventUser.isFavorite row = true
            /\ EventUser.userId row = u /\ EventUser.eventId row = e).
Proof.
  intros now u e s. unfold BookmarksController.store.
  split; [|split].
  - intros H. unfold BookmarksService.addBookmark,
      BookmarksService.addBookmark_read. rewrite H. reflexivity.
  - intros Hev H. unfold BookmarksService.addBookmark,
      BookmarksService.addBookmark_read.
    destruct (Lucid.findEvent s e); [|congruence]. rewrite H. reflexivity.
  - intros Hev Husr.
    destruct (addBookmark_succeeds now u e s Hev Husr)
      as (row & s' & H & Hfav & Hp).
    rewrite H. exists row. inversion Hp. auto.
Qed.

(** What [destroy] answers once the user is authenticated and the event
    id accepted. *)
Lemma destroy_authenticated u e s :
  (BookmarksService.isBookmarked u e s = false ->
     BookmarksController.destroy (Some u) (Some e) s
     = (BookmarksController.destroy404 "Bookmark not found", s))
  /\ (BookmarksService.isBookmarked u e s = true ->
        exists s',
          BookmarksController.destroy (Some u) (Some e) s
          = (BookmarksController.destroy200 "Bookmark removed successfully",
             s')
          /\ s' <> s).
Proof.
  unfold BookmarksController.destroy, BookmarksService.isBookmarked,
    BookmarksService.removeBookmark.
  destruct (Lucid.first _ _) as [row|] eqn:F.
  - split; [discriminate|].
    intros _. apply find_some in F. destruct F as [Hin Hp].
    apply andb_true_iff in Hp. destruct Hp as [_ Hfav].
    destruct (EventUser.hasJoined row); simpl.
    + eexists. split; [reflexivity|].
      rewrite (saveIsFavorite_dirty row false s Hfav). intros Heq.
      apply (f_equal event_users) in Heq. simpl in Heq.
      apply in_split in Hin. destruct Hin as (l1 & l2 & E).
      rewrite E, map_app in Heq. simpl in Heq.
      rewrite Z.eqb_refl in Heq.
      apply (f_equal (fun l => nth_error l (List.length l1))) in Heq.
      rewrite !nth_error_app2 in Heq by (rewrite ?length_map; lia).
      rewrite length_map, Nat.sub_diag in Heq. simpl in Heq.
      inversion Heq as [Hrow].
      apply (f_equal EventUser.isFavorite) in Hrow. simpl in Hrow.
      congruence.
    + eexists. split; [reflexivity|]. intros Heq.
      apply (f_equal event_users) in Heq. simpl in Heq.
      assert (Hin' : In row (filter
                (fun r => negb (EventUser.id r =? EventUser.id row))
                (event_users s))) by (rewrite Heq; exact Hin).
      apply filter_In in Hin'. destruct Hin' as [_ Hn].
      rewrite Z.eqb_refl in Hn. discriminate.
  - split; [reflexivity|discriminate].
Qed.

(** X11. DELETE /bookmarks/:eventId answers 500 'Failed to remove
    bookmark' exactly when no user is authenticated or the validator
    refuses the route parameters, and then changes nothing: the service
    call never causes a 500.  For an authenticated user and an accepted
    event id it answers 404 and changes nothing exactly when the pair is
    not bookmarked, and 200 with a changed store otherwise. *)
Theorem destroy_status :
  forall (user validated : option Z) (s : Store),
    ((exists message error,
        fst (BookmarksController.destroy user validated s)
        = BookmarksController.destroy500 message error)
     <-> user = None \/ validated = None)
    /\ (user = None ->
          BookmarksController.destroy user validated s
          = (BookmarksController.destroy500 "Failed to remove bookmark"
               BookmarksController.E_UNAUTHORIZED_ACCESS, s))
    /\ (user <> None -> validated = None ->
          BookmarksController.destroy user validated s
          = (BookmarksController.destroy500 "Failed to remove bookmark"
               BookmarksController.E_VALIDATION_ERROR, s))
    /\ (forall u e, user = Some u -> validated = Some e ->
          (BookmarksService.isBookmarked u e s = false ->
             BookmarksController.destroy user validated s
             = (BookmarksController.destroy404 "Bookmark not found", s))
          /\ (BookmarksService.isBookmarked u e s = true ->
                exists s',
                  BookmarksController.destroy user validated s
                  = (BookmarksController.destroy200
                       "Bookmark removed successfully", s')
                  /\ s' <> s)).
Proof.
  intros user validated s.
  split; [|split; [|split]].
  - destruct user as [u|]; [destruct validated as [e|]|].
    + split; [|intros [H|H]; discriminate H].
      intros (message & error & H). exfalso.
      destruct (destroy_authenticated u e s) as [H404 H200].
      destruct (BookmarksService.isBookmarked u e s).
      * destruct (H200 eq_refl) as (s' & E & _).
        rewrite E in H. discriminate H.
      * rewrite (H404 eq_refl) in H. discriminate H.
    + split; [auto|]. intros _. eexists; eexists; reflexivity.
    + split; [auto|]. intros _. eexists; eexists; reflexivity.
  - intros ->. reflexivity.
  - intros Hu ->. destruct user; [reflexivity|congruence].
  - intros u e -> ->. apply destroy_authenticated.
Qed.

(** ** EventsService.validateArtistsExist *)

Lemma whereInIds_ids artists ids :
  NoDup (map Artist.id artists) ->
  NoDup (map Artist.id (EventsService.whereInIds ids artists))
  /\ (forall i, In i (map Artist.id (EventsService.whereInIds ids artists))
        <-> In i ids /\ In i (map Artist.id artists)).
Proof.
  intros Hnd. split; [now apply NoDup_map_filter|].
  intros i. unfold EventsService.whereInIds. rewrite !in_map_iff. split.
  - intros [a [Hid Hin]]. apply filter_In in Hin. destruct Hin as [Hin Hex].
    apply existsb_exists in Hex. destruct Hex as [j [Hj Hij]].
    apply Z.eqb_eq in Hij. split; [congruence|]. exists a. auto.
  - intros [Hi [a [Hid Hin]]]. exists a. split; [exact Hid|].
    apply filter_In. split; [exact Hin|].
    apply existsb_exists. exists i. split; [exact Hi|].
    now apply Z.eqb_eq.
Qed.

(** The count of rows found equals the count of ids asked for exactly
    when the ids are distinct and all stored. *)
Lemma whereInIds_full artists ids :
  NoDup (map Artist.id artists) ->
  (List.length (EventsService.whereInIds ids artists) = List.length ids <->
   NoDup ids /\ forall i, In i ids -> In i (map Artist.id artists)).
Proof.
  intros Hnd. destruct (whereInIds_ids artists ids Hnd) as [Hnd' Hin].
  rewrite <- (length_map Artist.id). split.
  - intros Hlen.
    assert (Hincl : incl (map Artist.id (EventsService.whereInIds ids artists))
                         ids).
    { intros i Hi. apply Hin in Hi. tauto. }
    split.
    + eapply NoDup_incl_NoDup; [exact Hnd'|lia|exact Hincl].
    + intros i Hi.
      assert (Hback : incl ids
                (map Artist.id (EventsService.whereInIds ids artists)))
        by (eapply NoDup_length_incl; [exact Hnd'|lia|exact Hincl]).
      apply Hin. now apply Hback.
  - intros [Hids Hall]. apply Nat.le_antisymm.
    + apply NoDup_incl_length; [exact Hnd'|].
      intros i Hi. apply Hin in Hi. tauto.
    + apply NoDup_incl_length; [exact Hids|].
      intros i Hi. apply Hin. auto.
Qed.

(** X12. With a unique primary key on artists, validateArtistsExist
    returns exactly when the requested ids are pairwise distinct and each
    is the id of a stored artist; an empty request always passes. *)
Theorem validateArtistsExist_iff :
  forall (artists : list Artist.t) (artistIds : list Z),
    NoDup (map Artist.id artists) ->
    (EventsService.validateArtistsExist artists artistIds = Ok tt <->
     NoDup artistIds
     /\ forall i, In i artistIds -> In i (map Artist.id artists)).
Proof.
  intros artists ids Hnd. unfold EventsService.validateArtistsExist.
  destruct ids as [|i0 ids].
  - split; [|reflexivity]. intros _. split; [constructor|intros i []].
  - rewrite <- (whereInIds_full artists (i0 :: ids) Hnd).
    destruct (Nat.eqb _ _) eqn:E; simpl.
    + apply Nat.eqb_eq in E. tauto.
    + apply Nat.eqb_neq in E. split; [discriminate|contradiction].
Qed.

(** X13. When every requested id is stored but one is requested twice,
    validateArtistsExist throws NotFoundException with a message that
    names no id. *)
Theorem validateArtistsExist_repeated_id :
  forall (artists : list Artist.t) (artistIds : list Z),
    NoDup (map Artist.id artists) ->
    (forall i, In i artistIds -> In i (map Artist.id artists)) ->
    ~ NoDup artistIds ->
    EventsService.validateArtistsExist artists artistIds
    = Throw (NotFoundException "Artists not found: ").
Proof.
  intros artists ids Hnd Hall Hdup.
  unfold EventsService.validateArtistsExist.
  destruct ids as [|i0 ids]; [exfalso; apply Hdup; constructor|].
  destruct (Nat.eqb _ _) eqn:E; cbn [negb].
  - apply Nat.eqb_eq in E.
    apply (whereInIds_full artists (i0 :: ids) Hnd) in E. tauto.
  - assert (Hmiss : filter
        (fun artistId => negb (existsb (Z.eqb artistId)
           (map Artist.id (EventsService.whereInIds (i0 :: ids) artists))))
        (i0 :: ids) = []).
    { apply existsb_false_filter_nil.
      destruct (existsb _ (i0 :: ids)) eqn:Ex; [|reflexivity].
      apply existsb_exists in Ex. destruct Ex as [i [Hi Hn]].
      apply negb_true_iff in Hn.
      assert (Hex : existsb (Z.eqb i)
                (map Artist.id (EventsService.whereInIds (i0 :: ids) artists))
              = true).
      { apply existsb_exists. exists i. split; [|apply Z.eqb_refl].
        apply (whereInIds_ids artists (i0 :: ids) Hnd). auto. }
      congruence. }
    rewrite Hmiss. reflexivity.
Qed.

(** ** EventsService.delete *)

Lemma findEvent_id s k ev : Lucid.findEvent s k = Some ev -> Event.id ev = k.
Proof.
  intros H. apply find_some in H. destruct H as [_ H]. now apply Z.eqb_eq.
Qed.

Lemma findEvent_after_delete s k e :
  Lucid.findEvent (Lucid.deleteEvent k s) e
  = if e =? k then None else Lucid.findEvent s e.
Proof.
  unfold Lucid.findEvent, Lucid.deleteEvent. simpl.
  induction (events s) as [|x l IH]; simpl.
  - now destruct (e =? k).
  - destruct (Event.id x =? k) eqn:Ek; simpl.
    + rewrite IH. destruct (e =? k) eqn:Ee; [reflexivity|].
      destruct (Event.id x =? e) eqn:Ex; [|reflexivity].
      apply Z.eqb_eq in Ek, Ex. apply Z.eqb_neq in Ee. congruence.
    + destruct (Event.id x =? e) eqn:Ex; [|exact IH].
      destruct (e =? k) eqn:Ee; [|reflexivity].
      apply Z.eqb_eq in Ee, Ex. apply Z.eqb_neq in Ek. congruence.
Qed.

Lemma rowsFor_after_deleteEvent s k u e :
  rowsFor u e (Lucid.deleteEvent k s)
  = if e =? k then [] else rowsFor u e s.
Proof.
  unfold rowsFor, Lucid.deleteEvent. simpl.
  rewrite filter_filter_swap.
  destruct (e =? k) eqn:Ee.
  - apply Z.eqb_eq in Ee. subst k. apply existsb_false_filter_nil.
    destruct (existsb _ _) eqn:Ex; [|reflexivity].
    apply existsb_exists in Ex. destruct Ex as [r [Hin Hn]].
    apply filter_In in Hin. destruct Hin as [_ Hp].
    apply same_pair_iff in Hp. inversion Hp as [[Hu He]].
    rewrite He, Z.eqb_refl in Hn. discriminate.
  - apply forallb_filter_id. apply forallb_forall. intros r Hr.
    apply filter_In in Hr. destruct Hr as [_ Hp].
    apply same_pair_iff in Hp. inversion Hp as [[Hu He]].
    now rewrite He, Ee.
Qed.

(** X14. delete(id) returns false and changes nothing when no event has
    the id.  Otherwise it returns true, the event can no longer be found,
    no participation row of any user points to it, the rows of all other
    events and every other event are as before, and the users are
    untouched. *)
Theorem delete_spec :
  forall (id : Z) (s : Store),
    (Lucid.findEvent s id = None -> EventsService.delete id s = (false, s))
    /\ (Lucid.findEvent s id <> None ->
        exists s',
          EventsService.delete id s = (true, s')
          /\ Lucid.findEvent s' id = None
          /\ (forall u, rowsFor u id s' = [])
          /\ (forall u e, e <> id -> rowsFor u e s' = rowsFor u e s)
          /\ (forall e, e <> id -> Lucid.findEvent s' e = Lucid.findEvent s e)
          /\ users s' = users s).
Proof.
  intros id s. unfold EventsService.delete. split.
  - intros ->. reflexivity.
  - intros Hev. destruct (Lucid.findEvent s id) as [ev|] eqn:F; [|congruence].
    rewrite (findEvent_id s id ev F).
    eexists. split; [reflexivity|].
    split; [|split; [|split; [|split]]].
    + now rewrite findEvent_after_delete, Z.eqb_refl.
    + intros u. now rewrite rowsFor_after_deleteEvent, Z.eqb_refl.
    + intros u e Hne. rewrite rowsFor_after_deleteEvent.
      apply Z.eqb_neq in Hne. now rewrite Hne.
    + intros e Hne. rewrite findEvent_after_delete.
      apply Z.eqb_neq in Hne. now rewrite Hne.
    + reflexivity.
Qed.

(** X15. delete keeps the store's constraints: the participation table
    stays unique by id and by pair, and every remaining participation row
    still points to a stored event. *)
Theorem delete_keeps_constraints :
  forall (id : Z) (s : Store),
    constraints s -> referentialIntegrity s ->
    constraints (snd (EventsService.delete id s))
    /\ referentialIntegrity (snd (EventsService.delete id s)).
Proof.
  intros id s Hc Hri. unfold EventsService.delete.
  destruct (Lucid.findEvent s id) as [ev|] eqn:F; simpl; [|auto].
  rewrite (findEvent_id s id ev F).
  destruct Hc as (Hid & Hlt & Hp). destruct Hri as [Hnd Hfk]. split.
  - unfold constraints. simpl. repeat split; auto using NoDup_map_filter.
    intros r Hr. apply filter_In in Hr. apply Hlt. tauto.
  - unfold referentialIntegrity. simpl. split; [now apply NoDup_map_filter|].
    intros r Hr. apply filter_In in Hr. destruct Hr as [Hin Hn].
    destruct (Hfk r Hin) as [x [Hx Hxid]]. exists x. split; [|exact Hxid].
    apply filter_In. split; [exact Hx|]. now rewrite Hxid.
Qed.

Lemma filter_filter_and {A : Type} (p q : A -> bool) (l : list A) :
  filter p (filter q l) = filter (fun x => q x && p x) l.
Proof.
  induction l as [|x l IH]; simpl; [reflexivity|].
  destruct (q x); simpl; rewrite IH; reflexivity.
Qed.

Lemma filter_split_length {A : Type} (p q : A -> bool) (l : list A) :
  List.length (filter p l)
  = (List.length (filter p (filter (fun x => negb (q x)) l))
     + List.length (filter (fun x => q x && p x) l))%nat.
Proof.
  induction l as [|x l IH]; simpl; [reflexivity|].
  destruct (q x) eqn:Q, (p x) eqn:Pp; simpl; rewrite ?Pp; simpl; lia.
Qed.

(** X16. Deleting a stored event takes its bookmark out of each user's
    count: the count drops by one for a user who had bookmarked the event
    and is unchanged for the others; afterwards the event is bookmarked by
    nobody and addBookmark on it throws 'Event not found'. *)
Theorem delete_then_bookmarks :
  forall (id : Z) (s : Store),
    constraints s ->
    Lucid.findEvent s id <> None ->
    forall u,
      BookmarksService.getBookmarkStats u (snd (EventsService.delete id s))
      = BookmarksService.getBookmarkStats u s
        - (if BookmarksService.isBookmarked u id s then 1 else 0)
      /\ BookmarksService.isBookmarked u id (snd (EventsService.delete id s))
         = false
      /\ forall now,
           BookmarksService.addBookmark now u id
             (snd (EventsService.delete id s))
           = Throw (NotFoundException "Event not found").
Proof.
  intros id s Hc Hev u. unfold EventsService.delete.
  destruct (Lucid.findEvent s id) as [ev|] eqn:F; [|congruence].
  rewrite (findEvent_id s id ev F). simpl. split; [|split].
  - rewrite !getBookmarkStats_count. simpl.
    rewrite (filter_split_length (favoriteOf u)
               (fun r => EventUser.eventId r =? id) (event_users s)).
    assert (E : filter (fun r => (EventUser.eventId r =? id) && favoriteOf u r)
                       (event_users s)
                = filter EventUser.isFavorite (rowsFor u id s)).
    { unfold rowsFor. rewrite filter_filter_and. apply filter_ext.
      intros r. unfold favoriteOf, Lucid.same_pair.
      destruct (EventUser.eventId r =? id), (EventUser.userId r =? u),
        (EventUser.isFavorite r); reflexivity. }
    rewrite E.
    destruct (BookmarksService.isBookmarked u id s) eqn:B.
    + apply isBookmarked_iff in B. destruct B as [r [Hr Hfav]].
      rewrite (rowsFor_singleton u id s r Hc Hr). simpl. rewrite Hfav.
      simpl. lia.
    + assert (Hnone : filter EventUser.isFavorite (rowsFor u id s) = []).
      { apply existsb_false_filter_nil.
        destruct (existsb _ _) eqn:Ex; [|reflexivity].
        apply existsb_exists in Ex.
        assert (B' : BookmarksService.isBookmarked u id s = true)
          by (apply isBookmarked_iff; exact Ex).
        congruence. }
      rewrite Hnone. simpl. lia.
  - apply not_bookmarked_without_favorite. intros r Hr.
    rewrite rowsFor_after_deleteEvent, Z.eqb_refl in Hr. contradiction.
  - intros now. unfold BookmarksService.addBookmark,
      BookmarksService.addBookmark_read.
    now rewrite findEvent_after_delete, Z.eqb_refl.
Qed.

(** X17. DELETE /events/:id answers 404 and changes nothing exactly when
    no event has the id; after an answer of success a second DELETE of
    the same id answers 404. *)
Theorem deleteEvent_handle_status :
  forall (id : Z) (s : Store),
    (Lucid.findEvent s id = None ->
       DeleteEventController.handle id s
       = (DeleteEventController.notFound "Event not found" "EVENT_NOT_FOUND",
          s))
    /\ (Lucid.findEvent s id <> None ->
        exists s',
          DeleteEventController.handle id s
          = (DeleteEventController.ok "Event deleted successfully" id true, s')
          /\ DeleteEventController.handle id s'
             = (DeleteEventController.notFound "Event not found"
                  "EVENT_NOT_FOUND", s')).
Proof.
  intros id s. unfold DeleteEventController.handle, EventsService.delete.
  split.
  - intros ->. reflexivity.
  - intros Hev. destruct (Lucid.findEvent s id) as [ev|] eqn:F; [|congruence].
    rewrite (findEvent_id s id ev F). simpl.
    eexists. split; [reflexivity|].
    now rewrite findEvent_after_delete, Z.eqb_refl.
Qed.

(** * Further properties of the listing *)

Lemma getAll_inversion options s pg :
  EventsService.getAll options s = Ok pg ->
  Lucid.all pg
  = pageSlice (EventsService.effectivePage options)
              (EventsService.safeLimit options)
              (map (EventsService.preload s (GetEventsOptions.userId options))
                   (EventsService.selectedEvents options s))
  /\ Lucid.total pg
     = Z.of_nat (List.length
                   (filter (EventsService.selects
                              (EventsService.buildQuery options))
                           (events s))).
Proof.
  unfold EventsService.getAll. intros H. apply paginate_inversion in H.
  destruct H as (Hall & Htot & _). split; [exact Hall|].
  rewrite Htot, length_map. unfold EventsService.selectedEvents.
  now rewrite orderBy_length.
Qed.

(** X18. For a page from 1 on and a page size from 1 on, the number of
    events on the returned page is the page size cut to what is left of
    the matching events after the pages before it, and never negative;
    the total is the number of stored events that the filters select,
    whatever the page and the page size are. *)
Theorem getAll_page_length :
  forall (options : GetEventsOptions.t) (s : Store)
         (pg : Lucid.Paginator EventsService.LoadedEvent),
    EventsService.getAll options s = Ok pg ->
    1 <= EventsService.effectivePage options ->
    1 <= EventsService.safeLimit options ->
    Z.of_nat (List.length (Lucid.all pg))
    = Z.max 0 (Z.min (EventsService.safeLimit options)
                     (Lucid.total pg
                      - (EventsService.effectivePage options - 1)
                        * EventsService.safeLimit options))
    /\ Lucid.total pg
       = Z.of_nat (List.length
                     (filter (EventsService.selects
                                (EventsService.buildQuery options))
                             (events s))).
Proof.
  intros options s pg H Hp Hl.
  destruct (getAll_inversion options s pg H) as [Hall Htot].
  split; [|exact Htot].
  rewrite Hall, Htot. unfold pageSlice.
  rewrite length_firstn, length_skipn, length_map.
  unfold EventsService.selectedEvents. rewrite orderBy_length.
  set (n := List.length (filter _ (events s))).
  set (p := EventsService.effectivePage options) in *.
  set (l := EventsService.safeLimit options) in *.
  assert (0 <= (p - 1) * l) by nia.
  lia.
Qed.

(** X19. With a user id that is present and not 0, every event of the
    page carries exactly the participation rows stored for that user and
    that event, at most one when the store keeps its constraints; without
    a user id, or with the id 0, no event carries the relation. *)
Theorem getAll_participants :
  forall (options : GetEventsOptions.t) (s : Store)
         (pg : Lucid.Paginator EventsService.LoadedEvent),
    EventsService.getAll options s = Ok pg ->
    forall le, In le (Lucid.all pg) ->
      match GetEventsOptions.userId options with
      | None => EventsService.participants le = None
      | Some u =>
          if u =? 0 then EventsService.participants le = None
          else EventsService.participants le
               = Some (rowsFor u (Event.id (EventsService.event le)) s)
               /\ (constraints s ->
                   (List.length
                      (rowsFor u (Event.id (EventsService.event le)) s)
                    <= 1)%nat)
      end.
Proof.
  intros options s pg H le Hle.
  destruct (getAll_inversion options s pg H) as [Hall _].
  rewrite Hall in Hle. apply pageSlice_In in Hle.
  apply in_map_iff in Hle. destruct Hle as [ev [<- _]].
  unfold EventsService.preload, EventsService.truthyNumber.
  destruct (GetEventsOptions.userId options) as [u|]; [|reflexivity].
  destruct (u =? 0); [reflexivity|]. simpl. split.
  - f_equal. unfold rowsFor. apply filter_ext. intros r.
    unfold Lucid.same_pair. apply andb_comm.
  - intros Hc. now apply rowsFor_length.
Qed.

(** ** White space around the city value *)







(** The conjunction that the query of [getAll] stands for. *)
Lemma selects_normal_form options ev :
  EventsService.selects (EventsService.buildQuery options) ev
  = (match EventsService.truthyString (GetEventsOptions.type options) with
     | Some v => EventsService.whereType v ev | None => true end)
    && (match EventsService.truthyString (GetEventsOptions.subtype options) with
        | Some v => EventsService.whereSubtype v ev | None => true end)
    && (match EventsService.truthyString (GetEventsOptions.city options) with
        | Some v => EventsService.whereCity (EventsService.trim v) ev
        | None => true end)
    && (match GetEventsOptions.startDate options with
        | Some d => EventsService.whereStartDate (EventsService.toSQLDate d) ev
        | None => true end)
    && (match GetEventsOptions.endDate options with
        | Some d => EventsService.whereEndDate (EventsService.toSQLDate d) ev
        | None => true end).
Proof.
  destruct options as [pg lim ty sub ci sd ed uid].
  unfold EventsService.buildQuery, EventsService.selects,
    EventsService.addWhere.
  cbn [GetEventsOptions.type GetEventsOptions.subtype GetEventsOptions.city
       GetEventsOptions.startDate GetEventsOptions.endDate].
  destruct (EventsService.truthyString ty);
    destruct (EventsService.truthyString sub);
    destruct (EventsService.truthyString ci);
    destruct sd; destruct ed; cbn [app forallb];
    rewrite ?andb_true_r, ?andb_true_l, ?andb_assoc; reflexivity.
Qed.


(** ** Letter case of the city value *)

Lemma eq_ci_refl x : Lucid.eq_ci x x = true.
Proof. unfold Lucid.eq_ci. apply Ascii.eqb_refl. Qed.

Lemma prefixCi_refl c rest : prefixCi c (c ++ rest)%list = true.
Proof.
  induction c as [|x c IH]; simpl; [reflexivity|].
  now rewrite eq_ci_refl, IH.
Qed.

Lemma occursCi_self c : occursCi c c = true.
Proof.
  destruct c as [|x c]; simpl; [reflexivity|].
  rewrite eq_ci_refl. simpl.
  rewrite <- (app_nil_r c) at 2. now rewrite prefixCi_refl.
Qed.

Lemma prefixCi_same_letters c1 c2 s :
  map Lucid.lower c1 = map Lucid.lower c2 -> prefixCi c1 s = prefixCi c2 s.
Proof.
  revert c2 s. induction c1 as [|x c1 IH]; intros [|y c2] s H;
    simpl in *; try discriminate; [reflexivity|].
  injection H as Hx Hc. destruct s as [|z s]; [reflexivity|].
  unfold Lucid.eq_ci. rewrite Hx. f_equal. now apply IH.
Qed.

Lemma occursCi_same_letters c1 c2 s :
  map Lucid.lower c1 = map Lucid.lower c2 -> occursCi c1 s = occursCi c2 s.
Proof.
  intros H. induction s as [|z s IH]; simpl;
    rewrite (prefixCi_same_letters c1 c2 _ H); [reflexivity|].
  now rewrite IH.
Qed.

(** For a value whose trimmed form has no wildcard the city clause of the
    query, or its absence, is containment of the trimmed form. *)
Lemma city_clause_plain c ev :
  plain (EventsService.trim c) = true ->
  match EventsService.truthyString (Some c) with
  | Some v => EventsService.whereCity (EventsService.trim v) ev
  | None => true
  end
  = containsCi (EventsService.trim c) (Event.city ev).
Proof.
  intros Hp. unfold EventsService.truthyString.
  destruct (String.eqb c "") eqn:Ec.
  - apply String.eqb_eq in Ec. subst c. unfold containsCi. simpl.
    now destruct (list_ascii_of_string (Event.city ev)).
  - unfold EventsService.whereCity. rewrite (whereILike_plain _ _ Hp).
    destruct (String.eqb (Event.city ev) (EventsService.trim c)) eqn:E;
      [|reflexivity].
    apply String.eqb_eq in E. rewrite E. unfold containsCi.
    now rewrite occursCi_self.
Qed.

(** X21. The city filter does not see letter case: two city values whose
    trimmed forms have no [%], [_] or backslash and are the same up to the
    case of their letters give the same listing. *)
Theorem getAll_city_case_insensitive :
  forall (page limit : option Z) (type subtype : option string)
         (city1 city2 : string) (startDate endDate : option JsDate)
         (userId : option Z) (s : Store),
    plain (EventsService.trim city1) = true ->
    plain (EventsService.trim city2) = true ->
    map Lucid.lower (list_ascii_of_string (EventsService.trim city1))
    = map Lucid.lower (list_ascii_of_string (EventsService.trim city2)) ->
    EventsService.getAll
      (GetEventsOptions.mk page limit type subtype (Some city1)
                           startDate endDate userId) s
    = EventsService.getAll
        (GetEventsOptions.mk page limit type subtype (Some city2)
                             startDate endDate userId) s.
Proof.
  intros page limit type subtype city1 city2 sd ed uid s Hp1 Hp2 Hsame.
  unfold EventsService.getAll. f_equal. f_equal.
  unfold EventsService.selectedEvents. f_equal.
  apply filter_ext. intros ev. rewrite !selects_normal_form.
  cbn [GetEventsOptions.type GetEventsOptions.subtype GetEventsOptions.city
       GetEventsOptions.startDate GetEventsOptions.endDate].
  do 2 f_equal. f_equal.
  rewrite (city_clause_plain city1 ev Hp1), (city_clause_plain city2 ev Hp2).
  unfold containsCi. now apply occursCi_same_letters.
Qed.

(** ** The bookmarks listing has no ceiling *)

(** X22. getUserBookmarks puts no ceiling on the limit: with page 1 and a
    limit that is at least the number of the user's bookmarks, the page
    returned has the size asked for and holds every model of the listing,
    as many as the total says. *)
Theorem getUserBookmarks_no_ceiling :
  forall (u limit : Z) (s : Store),
    Z.of_nat (List.length (BookmarksService.bookmarkListing u s)) <= limit ->
    exists pg,
      BookmarksService.getUserBookmarks u (Some 1) (Some limit) s = Ok pg
      /\ Lucid.perPage pg = limit
      /\ Lucid.total pg
         = Z.of_nat (List.length (BookmarksService.bookmarkListing u s))
      /\ Z.of_nat (List.length (Lucid.all pg)) = Lucid.total pg
      /\ forall m, In m (Lucid.all pg)
                   <-> In m (BookmarksService.bookmarkListing u s).
Proof.
  intros u limit s Hlen.
  unfold BookmarksService.getUserBookmarks.
  destruct (paginate_returns 1 limit (BookmarksService.bookmarkListing u s))
    as [pg Hpg]; [lia|lia|].
  exists pg. split; [exact Hpg|].
  apply paginate_inversion in Hpg.
  destruct Hpg as (Hall & Htot & Hper & _).
  assert (E : Lucid.all pg = BookmarksService.bookmarkListing u s).
  { rewrite Hall. unfold pageSlice. simpl. apply firstn_all2. lia. }
  split; [exact Hper|]. split; [exact Htot|].
  rewrite E, Htot. split; [reflexivity|]. intros m. reflexivity.
Qed.

(** X27. For a page number from 1 on and a limit from 0 on
    getUserBookmarks returns a page made of joined rows of the user's
    favorites that are in descending order of the participation row's
    creation time; the page holds the limit cut to what is left of the
    listing after the pages before it, the total is the length of the
    whole listing, and page 1 and limit 20 stand in for absent
    arguments. *)
Theorem getUserBookmarks_page_order :
  forall (u page limit : Z) (s : Store),
    1 <= page -> 0 <= limit ->
    exists pg rows,
      BookmarksService.getUserBookmarks u (Some page) (Some limit) s = Ok pg
      /\ Lucid.all pg = map BookmarksService.hydrateEvent rows
      /\ StronglySorted latestFirst rows
      /\ (forall ev r, In (ev, r) rows ->
            In ev (events s) /\ In r (event_users s)
            /\ EventUser.eventId r = Event.id ev
            /\ EventUser.userId r = u /\ EventUser.isFavorite r = true)
      /\ Lucid.total pg
         = Z.of_nat (List.length (BookmarksService.bookmarkListing u s))
      /\ Z.of_nat (List.length (Lucid.all pg))
         = Z.max 0 (Z.min limit (Lucid.total pg - (page - 1) * limit))
      /\ Lucid.currentPage pg = page
      /\ Lucid.perPage pg = limit
      /\ (page = 1 -> limit = 20 ->
          BookmarksService.getUserBookmarks u None None s = Ok pg).
Proof.
  intros u page limit s Hp Hl.
  unfold BookmarksService.getUserBookmarks.
  destruct (paginate_returns page limit
              (BookmarksService.bookmarkListing u s) Hp Hl) as [pg Hpg].
  exists pg, (pageSlice page limit (BookmarksService.userBookmarkRows u s)).
  split; [exact Hpg|].
  pose proof (paginate_inversion _ _ _ _ Hpg)
    as (Hall & Htot & Hper & Hcur & _).
  split; [|split; [|split; [|split; [|split; [|split; [|split]]]]]].
  - rewrite Hall. unfold pageSlice, BookmarksService.bookmarkListing.
    now rewrite skipn_map, firstn_map.
  - unfold pageSlice. apply firstn_sorted, skipn_sorted.
    apply userBookmarkRows_sorted.
  - intros ev r Hin. apply pageSlice_In in Hin.
    now apply userBookmarkRows_In in Hin.
  - exact Htot.
  - rewrite Hall, Htot. unfold pageSlice.
    rewrite length_firstn, length_skipn.
    set (n := List.length (BookmarksService.bookmarkListing u s)).
    assert (0 <= (page - 1) * limit) by nia.
    lia.
  - exact Hcur.
  - exact Hper.
  - intros -> ->. exact Hpg.
Qed.

(** ** DriveService *)

Lemma prefix_append p x : String.prefix p (p ++ x) = true.
Proof.
  induction p as [|a p IH]; simpl; [now destruct x|].
  destruct (ascii_dec a a); [exact IH|congruence].
Qed.

Lemma dropChars_append p x : DriveService.dropChars (String.length p) (p ++ x) = x.
Proof. induction p as [|a p IH]; simpl; [now destruct x|exact IH]. Qed.

Lemma replaceFirstByEmpty_prefix p x :
  DriveService.replaceFirstByEmpty p (p ++ x) = x.
Proof.
  assert (H : forall s, String.prefix p s = true ->
            DriveService.replaceFirstByEmpty p s
            = DriveService.dropChars (String.length p) s).
  { intros s Hs. destruct s; simpl; simpl in Hs; now rewrite Hs. }
  rewrite H by apply prefix_append. apply dropChars_append.
Qed.

Lemma append_assoc3 a b c : ((a ++ b) ++ c = a ++ (b ++ c))%string.
Proof. induction a as [|x a IH]; simpl; [reflexivity|now rewrite IH]. Qed.

Lemma append_not_empty a b : b <> EmptyString -> (a ++ b)%string <> EmptyString.
Proof. destruct a; simpl; [auto|discriminate]. Qed.

Lemma truthyString_not_empty v :
  v <> EmptyString -> EventsService.truthyString (Some v) = Some v.
Proof. intros H. apply truthyString_provided. split; auto. Qed.

Lemma pathPrefixOf_not_empty config :
  DriveService.pathPrefixOf config <> EmptyString.
Proof.
  unfold DriveService.pathPrefixOf, EventsService.truthyString.
  destruct (DriveService.urlPrefix config) as [p|]; [|discriminate].
  destruct (String.eqb p "") eqn:E; [discriminate|].
  intros H. subst p. discriminate.
Qed.

Lemma samePath_iff a b : DriveService.samePath a b = true <-> a = b.
Proof.
  revert b. induction a as [|x a IH]; intros [|y b]; simpl;
    try (split; [discriminate|discriminate]); [tauto|].
  rewrite andb_true_iff, String.eqb_eq, IH. split.
  - intros [-> ->]. reflexivity.
  - intros H. injection H as -> ->. auto.
Qed.

Lemma unlink_removes p disk : ~ In p (DriveService.unlink p disk).
Proof.
  unfold DriveService.unlink. intros H. apply filter_In in H.
  destruct H as [_ H]. apply negb_true_iff in H.
  assert (T : DriveService.samePath p p = true) by now apply samePath_iff.
  congruence.
Qed.

Lemma unlink_after_move p disk :
  ~ In p disk -> DriveService.unlink p (DriveService.move p disk) = disk.
Proof.
  intros Hn. unfold DriveService.move.
  assert (Ex : existsb (DriveService.samePath p) disk = false).
  { destruct (existsb _ _) eqn:Ex; [|reflexivity].
    apply existsb_exists in Ex. destruct Ex as [q [Hq Hs]].
    apply samePath_iff in Hs. subst q. contradiction. }
  rewrite Ex. unfold DriveService.unlink. rewrite filter_app. simpl.
  assert (T : DriveService.samePath p p = true) by now apply samePath_iff.
  rewrite T. simpl. rewrite app_nil_r.
  apply forallb_filter_id. apply forallb_forall. intros q Hq.
  apply negb_true_iff. destruct (DriveService.samePath p q) eqn:E;
    [|reflexivity].
  apply samePath_iff in E. subst q. contradiction.
Qed.

Lemma move_writes p disk : In p (DriveService.move p disk).
Proof.
  unfold DriveService.move. destruct (existsb _ _) eqn:Ex.
  - apply existsb_exists in Ex. destruct Ex as [q [Hq Hs]].
    apply samePath_iff in Hs. now subst q.
  - apply in_or_app. right. now left.
Qed.

(** [join] gives paths in normal form. *)
Lemma segments_without_slash name :
  forallb (fun segment =>
             forallb (fun x => negb (Ascii.eqb x "/"))
                     (list_ascii_of_string segment))
          (DriveService.segments name) = true.
Proof.
  induction name as [|c name IH]; simpl; [reflexivity|].
  destruct (Ascii.eqb c "/") eqn:E; simpl; [exact IH|].
  destruct (DriveService.segments name) as [|segment rest]; simpl.
  - now rewrite E.
  - simpl in IH. now rewrite E.
Qed.

Lemma resolve_normal names :
  forallb (fun segment =>
             forallb (fun x => negb (Ascii.eqb x "/"))
                     (list_ascii_of_string segment)) names = true ->
  forall walked,
    forallb normalSegment walked = true ->
    forallb normalSegment (DriveService.resolve walked names) = true.
Proof.
  induction names as [|name names IH]; intros Hn walked Hw; simpl;
    [exact Hw|].
  simpl in Hn. apply andb_true_iff in Hn. destruct Hn as [Hname Hn].
  destruct (String.eqb name "") eqn:E1; simpl; [now apply IH|].
  destruct (String.eqb name ".") eqn:E2; simpl; [now apply IH|].
  destruct (String.eqb name "..") eqn:E3.
  - apply IH; [exact Hn|]. destruct walked as [|w walked]; [reflexivity|].
    simpl in Hw. apply andb_true_iff in Hw. tauto.
  - apply IH; [exact Hn|]. simpl. rewrite Hw, andb_true_r.
    unfold normalSegment. now rewrite E1, E2, E3, Hname.
Qed.

Lemma join_normal location name :
  forallb normalSegment location = true ->
  forallb normalSegment (DriveService.join location name) = true.
Proof.
  intros H. unfold DriveService.join.
  assert (R : forall l, forallb normalSegment l = true ->
                        forallb normalSegment (rev l) = true).
  { intros l Hl. apply forallb_forall. intros x Hx.
    apply in_rev in Hx. revert x Hx. now apply forallb_forall. }
  apply R, resolve_normal; [apply segments_without_slash|now apply R].
Qed.

Lemma move_normal p disk :
  forallb normalSegment p = true -> normalDisk disk = true ->
  normalDisk (DriveService.move p disk) = true.
Proof.
  intros Hp Hd. unfold DriveService.move.
  destruct (existsb _ _); [exact Hd|].
  unfold normalDisk in *. apply forallb_forall. intros q Hq.
  apply in_app_or in Hq. destruct Hq as [Hq|[<-|[]]]; [|exact Hp].
  revert q Hq. now apply forallb_forall.
Qed.

Lemma unlink_normal p disk :
  normalDisk disk = true -> normalDisk (DriveService.unlink p disk) = true.
Proof.
  unfold normalDisk, DriveService.unlink. intros Hd.
  apply forallb_forall. intros q Hq. apply filter_In in Hq.
  destruct Hq as [Hq _]. revert q Hq. now apply forallb_forall.
Qed.

(** Where a name that is put together ends. *)
Lemma endsWithSlash_append a c b :
  DriveService.endsWithSlash (a ++ String c b)
  = DriveService.endsWithSlash (String c b).
Proof.
  unfold DriveService.endsWithSlash.
  rewrite list_ascii_of_string_app, rev_app_distr.
  destruct (rev (list_ascii_of_string (String c b))) as [|x l] eqn:E;
    [|reflexivity].
  apply (f_equal (@List.length ascii)) in E.
  rewrite length_rev in E. discriminate E.
Qed.

Lemma fileNameOf_end cuid file config :
  DriveService.endsWithSlash (DriveService.extnameInTemplate file) = false ->
  DriveService.joinEndsWithSlash (DriveService.uploadsPath config)
    (DriveService.fileNameOf cuid file config) = false.
Proof.
  intros He. unfold DriveService.joinEndsWithSlash, DriveService.fileNameOf.
  set (e := DriveService.extnameInTemplate file) in *.
  set (n := EventsService.numberToString (DriveService.entityId config)).
  set (t := DriveService.entityType config).
  assert (E : String.eqb (t ++ "_" ++ n ++ "_" ++ cuid ++ "." ++ e) ""
              = false).
  { destruct t; reflexivity. }
  rewrite E.
  assert (A : (t ++ "_" ++ n ++ "_" ++ cuid ++ "." ++ e
               = (t ++ "_" ++ n ++ "_" ++ cuid) ++ String "." e)%string).
  { rewrite !append_assoc3. reflexivity. }
  rewrite A, endsWithSlash_append.
  destruct e as [|c e]; [reflexivity|].
  change (String "." (String c e)) with ("." ++ String c e)%string.
  now rewrite endsWithSlash_append.
Qed.

(** The URL that a successful uploadFile returns is the path prefix of
    the configuration followed by the file name it wrote. *)
Lemma uploadFile_returned publicDir cuid moved file config disk url disk' :
  DriveService.uploadFile publicDir cuid moved file config disk
  = (DriveService.Returned url, disk') ->
  url = (DriveService.pathPrefixOf config
         ++ DriveService.fileNameOf cuid file config)%string
  /\ disk' = DriveService.move
               (DriveService.join
                  (DriveService.publicPath publicDir
                     (DriveService.uploadsPath config))
                  (DriveService.fileNameOf cuid file config)) disk.
Proof.
  unfold DriveService.uploadFile, DriveService.pathPrefixOf.
  destruct (DriveService.validateFileType _ _); [|discriminate|discriminate].
  destruct moved; cbn [negb]; [|discriminate].
  destruct (EventsService.truthyString (DriveService.urlPrefix config));
    intros H; inversion H; subst; split; try reflexivity.
  now rewrite !append_assoc3.
Qed.

Lemma deleteFile_under_prefix publicDir config name disk :
  DriveService.joinEndsWithSlash (DriveService.uploadsPath config) name
  = false ->
  DriveService.deleteFile publicDir
    (Some (DriveService.pathPrefixOf config ++ name)%string) config disk
  = DriveService.unlink
      (DriveService.join
         (DriveService.publicPath publicDir (DriveService.uploadsPath config))
         name) disk.
Proof.
  intros Hend. unfold DriveService.deleteFile.
  rewrite truthyString_not_empty.
  - now rewrite prefix_append, replaceFirstByEmpty_prefix, Hend.
  - intros H. apply (pathPrefixOf_not_empty config).
    destruct (DriveService.pathPrefixOf config); [reflexivity|discriminate].
Qed.

(** X23. The URL that uploadFile returns leads deleteFile back to the
    file that uploadFile wrote.  For a file whose extension does not end
    in '/', on a disk of paths in normal form under a public directory in
    normal form: an upload that returns has moved the file, the file is
    on the disk at the normalised path of its name, deleteFile on the
    returned URL with the same configuration removes it, the disk stays
    in normal form, and when no file was at that path before the upload
    the disk is again what it was. *)
Theorem uploadFile_then_deleteFile :
  forall (publicDir : DriveService.Path) (cuid : string) (moved : bool)
         (file : DriveService.MultipartFile)
         (config : DriveService.UploadConfig) (disk disk' : DriveService.Disk)
         (url : string),
    forallb normalSegment publicDir = true ->
    normalDisk disk = true ->
    DriveService.endsWithSlash (DriveService.extnameInTemplate file) = false ->
    DriveService.uploadFile publicDir cuid moved file config disk
    = (DriveService.Returned url, disk') ->
    let written :=
      DriveService.join
        (DriveService.publicPath publicDir (DriveService.uploadsPath config))
        (DriveService.fileNameOf cuid file config) in
    moved = true
    /\ In written disk'
    /\ normalDisk disk' = true
    /\ ~ In written (DriveService.deleteFile publicDir (Some url) config disk')
    /\ normalDisk (DriveService.deleteFile publicDir (Some url) config disk')
       = true
    /\ (~ In written disk ->
        DriveService.deleteFile publicDir (Some url) config disk' = disk).
Proof.
  intros publicDir cuid moved file config disk disk' url Hpub Hdisk Hext H
    written.
  assert (Hm : moved = true).
  { unfold DriveService.uploadFile in H.
    destruct (DriveService.validateFileType _ _);
      [|discriminate|discriminate].
    destruct moved; [reflexivity|discriminate]. }
  split; [exact Hm|].
  apply uploadFile_returned in H. destruct H as [-> ->].
  rewrite deleteFile_under_prefix by now apply fileNameOf_end.
  fold written.
  assert (Hw : forallb normalSegment written = true).
  { unfold written, DriveService.publicPath. now do 2 apply join_normal. }
  split; [apply move_writes|].
  split; [now apply move_normal|].
  split; [apply unlink_removes|].
  split; [now apply unlink_normal, move_normal|].
  apply unlink_after_move.
Qed.

(** X24. replaceFile removes the old file before it looks at the new one:
    when the new file's extension is not allowed the call ends in
    BadRequestException and the old file, if its URL is under the path
    prefix and names a file (the joined path does not end in '/'), is no
    longer on the disk at the normalised path of its name. *)
Theorem replaceFile_invalid_type_still_deletes :
  forall (publicDir : DriveService.Path) (cuid : string) (moved : bool)
         (file : DriveService.MultipartFile)
         (config : DriveService.UploadConfig) (name : string)
         (disk : DriveService.Disk),
    normalDisk disk = true ->
    existsb (String.eqb (DriveService.extnameOrEmpty file))
            (DriveService.allowedExtensions config) = false ->
    DriveService.joinEndsWithSlash (DriveService.uploadsPath config) name
    = false ->
    let old :=
      DriveService.join
        (DriveService.publicPath publicDir (DriveService.uploadsPath config))
        name in
    DriveService.replaceFile publicDir cuid moved file config
      (Some (DriveService.pathPrefixOf config ++ name)%string) disk
    = (DriveService.BadRequestException
         ("Invalid file type. Allowed types: "
          ++ String.concat ", " (DriveService.allowedExtensions config))%string,
       DriveService.unlink old disk)
    /\ ~ In old
            (snd (DriveService.replaceFile publicDir cuid moved file config
                    (Some (DriveService.pathPrefixOf config ++ name)%string)
                    disk))
    /\ normalDisk
         (snd (DriveService.replaceFile publicDir cuid moved file config
                 (Some (DriveService.pathPrefixOf config ++ name)%string)
                 disk)) = true.
Proof.
  intros publicDir cuid moved file config name disk Hdisk Hbad Hend old.
  assert (E : DriveService.replaceFile publicDir cuid moved file config
      (Some (DriveService.pathPrefixOf config ++ name)%string) disk
    = (DriveService.BadRequestException
         ("Invalid file type. Allowed types: "
          ++ String.concat ", " (DriveService.allowedExtensions config))%string,
       DriveService.unlink old disk)).
  { unfold DriveService.replaceFile.
    rewrite truthyString_not_empty.
    - rewrite (deleteFile_under_prefix publicDir config name disk Hend).
      unfold DriveService.uploadFile, DriveService.validateFileType.
      rewrite Hbad. reflexivity.
    - intros H. apply (pathPrefixOf_not_empty config).
      destruct (DriveService.pathPrefixOf config); [reflexivity|discriminate]. }
  rewrite E. split; [reflexivity|]. simpl.
  split; [apply unlink_removes|now apply unlink_normal].
Qed.

(** ** addBookmark between the writes of other requests *)

(** X25. Whatever other requests commit between the reads and the write
    of addBookmark, a call that returns leaves a store that keeps its
    constraints, with at most one row for the pair. *)
Theorem addBookmark_interleaved_keeps_constraints :
  forall (now u e : Z) (others : Store -> Store) (s s' : Store)
         (row : EventUser.t),
    constraints (others s) ->
    BookmarksService.addBookmark_interleaved now u e others s = Ok (row, s') ->
    constraints s' /\ (List.length (rowsFor u e s') <= 1)%nat.
Proof.
  intros now u e others s s' row Hc H.
  assert (Hc' : constraints s').
  { unfold BookmarksService.addBookmark_interleaved in H.
    destruct (BookmarksService.addBookmark_read u e s) as [[old|]|x];
      simpl in H; [| |discriminate].
    - inversion H; subst. now apply constraints_save.
    - eapply constraints_create; eauto. }
  split; [exact Hc'|now apply rowsFor_length].
Qed.

(** X26. When the row that addBookmark read is deleted by another request
    before the write, addBookmark still returns that row with isFavorite
    = true, and writes nothing: the store stays as the other request left
    it. *)
Theorem addBookmark_interleaved_row_gone :
  forall (now u e : Z) (others : Store -> Store) (s : Store)
         (old : EventUser.t),
    BookmarksService.addBookmark_read u e s = Ok (Some old) ->
    (forall r, In r (event_users (others s)) ->
       EventUser.id r <> EventUser.id old) ->
    BookmarksService.addBookmark_interleaved now u e others s
    = Ok (Lucid.setFavorite true old, others s).
Proof.
  intros now u e others s old Hread Hgone.
  unfold BookmarksService.addBookmark_interleaved. rewrite Hread. simpl.
  do 2 f_equal. unfold Lucid.saveIsFavorite.
  destruct (Bool.eqb _ _); [reflexivity|].
  apply store_eq; try reflexivity. simpl.
  apply map_update_elsewhere. intros r Hr.
  apply Z.eqb_neq. now apply Hgone.
Qed.

(** ** The further properties on the sample data *)

Lemma constraints_bookmarks : constraints Sample.bookmarks.
Proof.
  unfold constraints; simpl. repeat split.
  - repeat constructor; simpl; intuition discriminate.
  - intros r [<-|[<-|[]]]; simpl; lia.
  - repeat constructor; simpl; intuition discriminate.
Qed.

Lemma integrity_bookmarks : referentialIntegrity Sample.bookmarks.
Proof.
  unfold referentialIntegrity; simpl. split.
  - repeat constructor; simpl; intuition discriminate.
  - intros r [<-|[<-|[]]]; simpl.
    + exists Sample.concert. auto.
    + exists Sample.expo. auto.
Qed.

Lemma integrity_joined : referentialIntegrity Sample.joined.
Proof.
  unfold referentialIntegrity; simpl. split.
  - repeat constructor; simpl; intuition discriminate.
  - intros r [<-|[]]; simpl. exists Sample.concert. auto.
Qed.

Lemma isBookmarked_after_addBookmark_witness :
  exists row s',
    BookmarksService.addBookmark 10 1 1 Sample.empty = Ok (row, s')
    /\ BookmarksService.isBookmarked 1 1 s' = true.
Proof.
  eexists; eexists. split; [reflexivity|].
  eapply (isBookmarked_after_addBookmark 10 1 1 Sample.empty).
  reflexivity.
Defined.

Lemma removeBookmark_then_not_bookmarked_witness :
  constraints Sample.bookmarks
  /\ exists s',
       BookmarksService.removeBookmark 1 2 Sample.bookmarks = Ok (true, s')
       /\ BookmarksService.isBookmarked 1 2 s' = false
       /\ BookmarksService.removeBookmark 1 2 s' = Ok (false, s').
Proof.
  split; [exact constraints_bookmarks|].
  eexists. split; [reflexivity|].
  apply (removeBookmark_then_not_bookmarked 1 2 Sample.bookmarks _ true
           constraints_bookmarks).
  reflexivity.
Defined.

Lemma addBookmark_then_removeBookmark_witness :
  constraints Sample.empty
  /\ rowsFor 1 1 Sample.empty = []
  /\ exists row s1,
       BookmarksService.addBookmark 10 1 1 Sample.empty = Ok (row, s1)
       /\ BookmarksService.removeBookmark 1 1 s1
          = Ok (true, mkStore (users Sample.empty) (events Sample.empty)
                              (event_users Sample.empty) 2).
Proof.
  split; [exact constraints_empty|]. split; [reflexivity|].
  eexists; eexists. split; [reflexivity|].
  eapply (addBookmark_then_removeBookmark 10 1 1 Sample.empty);
    [exact constraints_empty|reflexivity|reflexivity].
Defined.

Lemma removeBookmark_then_addBookmark_witness :
  constraints Sample.joined
  /\ In (EventUser.mk 1 1 1 true true 1000) (rowsFor 1 1 Sample.joined)
  /\ exists s1,
       BookmarksService.removeBookmark 1 1 Sample.joined = Ok (true, s1)
       /\ BookmarksService.addBookmark 10 1 1 s1
          = Ok (EventUser.mk 1 1 1 true true 1000, Sample.joined).
Proof.
  split; [exact constraints_joined|]. split; [simpl; auto|].
  destruct (removeBookmark_then_addBookmark 10 1 1 Sample.joined
              (EventUser.mk 1 1 1 true true 1000) constraints_joined)
    as (s1 & H1 & _ & H2);
    [discriminate|discriminate|simpl; auto|reflexivity|reflexivity|].
  exists s1. auto.
Defined.

Lemma getBookmarkStats_after_addBookmark_witness :
  constraints Sample.empty
  /\ exists row s',
       BookmarksService.addBookmark 10 1 1 Sample.empty = Ok (row, s')
       /\ BookmarksService.getBookmarkStats 1 s'
          = BookmarksService.getBookmarkStats 1 Sample.empty + 1.
Proof.
  split; [exact constraints_empty|].
  eexists; eexists. split; [reflexivity|].
  destruct (getBookmarkStats_after_addBookmark 10 1 1 Sample.empty _ _
              constraints_empty eq_refl) as [H _].
  exact H.
Defined.

Lemma getBookmarkStats_after_removeBookmark_witness :
  constraints Sample.bookmarks
  /\ exists s',
       BookmarksService.removeBookmark 1 2 Sample.bookmarks = Ok (true, s')
       /\ BookmarksService.getBookmarkStats 1 s'
          = BookmarksService.getBookmarkStats 1 Sample.bookmarks - 1.
Proof.
  split; [exact constraints_bookmarks|].
  eexists. split; [reflexivity|].
  destruct (getBookmarkStats_after_removeBookmark 1 2 Sample.bookmarks _ true
              constraints_bookmarks eq_refl) as [H _].
  exact H.
Defined.

Lemma getUserBookmarks_total_is_getBookmarkStats_witness :
  referentialIntegrity Sample.bookmarks
  /\ exists pg,
       BookmarksService.getUserBookmarks 1 None None Sample.bookmarks = Ok pg
       /\ Lucid.total pg = BookmarksService.getBookmarkStats 1 Sample.bookmarks.
Proof.
  split; [exact integrity_bookmarks|].
  eexists. split; [reflexivity|].
  apply (getUserBookmarks_total_is_getBookmarkStats 1 None None
           Sample.bookmarks _ integrity_bookmarks).
  reflexivity.
Defined.

Lemma integrity_oneBookmark : referentialIntegrity Sample.oneBookmark.
Proof.
  unfold referentialIntegrity; simpl. split.
  - repeat constructor; simpl; intuition discriminate.
  - intros r [<-|[]]; simpl. exists Sample.expo. auto.
Qed.

Lemma isBookmarked_iff_listed_witness :
  referentialIntegrity Sample.oneBookmark
  /\ BookmarksService.isBookmarked 1 2 Sample.oneBookmark = true
  /\ (exists ev r,
        In ev (events Sample.oneBookmark) /\ Event.id ev = 2
        /\ In r (rowsFor 1 2 Sample.oneBookmark)
        /\ EventUser.isFavorite r = true
        /\ In (BookmarksService.hydrateEvent (ev, r))
              (BookmarksService.bookmarkListing 1 Sample.oneBookmark))
  /\ BookmarksService.bookmarkListing 1 Sample.oneBookmark
     = [Event.mk 1 "Jazz in pictures" "Paris" "exhibition" "jazz" 19750 None].
Proof.
  split; [exact integrity_oneBookmark|]. split; [reflexivity|].
  split; [|reflexivity].
  apply (isBookmarked_iff_listed 1 2 Sample.oneBookmark
           integrity_oneBookmark).
  reflexivity.
Defined.

Lemma ledger_leaves_joined_rows_alone_witness :
  constraints Sample.joined
  /\ joinFacet (run Sample.history Sample.joined) = joinFacet Sample.joined.
Proof.
  split; [exact constraints_joined|].
  destruct (ledger_leaves_joined_rows_alone Sample.history Sample.joined
              constraints_joined) as [H _].
  exact H.
Defined.

Lemma store_status_witness :
  Lucid.findEvent Sample.empty 1 <> None
  /\ Lucid.findUser Sample.empty 9 = None
  /\ BookmarksController.store 10 9 1 Sample.empty
     = BookmarksController.status500 "Failed to bookmark event"
         (NotFoundException "User not found").
Proof.
  split; [discriminate|]. split; [reflexivity|].
  destruct (store_status 10 9 1 Sample.empty) as (_ & H & _).
  apply H; [discriminate|reflexivity].
Defined.

Lemma destroy_status_witness :
  BookmarksService.isBookmarked 1 2 Sample.empty = false
  /\ BookmarksController.destroy (Some 1) (Some 2) Sample.empty
     = (BookmarksController.destroy404 "Bookmark not found", Sample.empty)
  /\ BookmarksController.destroy None (Some 2) Sample.empty
     = (BookmarksController.destroy500 "Failed to remove bookmark"
          BookmarksController.E_UNAUTHORIZED_ACCESS, Sample.empty).
Proof.
  split; [reflexivity|].
  destruct (destroy_status (Some 1) (Some 2) Sample.empty)
    as (_ & _ & _ & H).
  destruct (destroy_status None (Some 2) Sample.empty) as (_ & H500 & _).
  split; [|exact (H500 eq_refl)].
  apply (H 1 2 eq_refl eq_refl). reflexivity.
Defined.

Lemma artists_unique : NoDup (map Artist.id Sample.artists).
Proof. repeat constructor; simpl; intuition discriminate. Qed.

Lemma validateArtistsExist_iff_witness :
  NoDup (map Artist.id Sample.artists)
  /\ EventsService.validateArtistsExist Sample.artists [2; 1] = Ok tt
  /\ NoDup [2; 1].
Proof.
  split; [exact artists_unique|]. split; [reflexivity|].
  destruct (validateArtistsExist_iff Sample.artists [2; 1] artists_unique)
    as [H _].
  destruct (H eq_refl) as [Hnd _]. exact Hnd.
Defined.

Lemma validateArtistsExist_repeated_id_witness :
  NoDup (map Artist.id Sample.artists)
  /\ ~ NoDup [1; 2; 1]
  /\ EventsService.validateArtistsExist Sample.artists [1; 2; 1]
     = Throw (NotFoundException "Artists not found: ").
Proof.
  assert (Hdup : ~ NoDup [1; 2; 1]).
  { intros H. inversion H as [|? ? Hn _]; subst. apply Hn. simpl. auto. }
  split; [exact artists_unique|]. split; [exact Hdup|].
  apply (validateArtistsExist_repeated_id Sample.artists [1; 2; 1]
           artists_unique); [|exact Hdup].
  intros i [<-|[<-|[<-|[]]]]; simpl; auto.
Defined.

Lemma delete_spec_witness :
  Lucid.findEvent Sample.bookmarks 2 <> None
  /\ exists s',
       EventsService.delete 2 Sample.bookmarks = (true, s')
       /\ Lucid.findEvent s' 2 = None
       /\ rowsFor 1 2 s' = [].
Proof.
  split; [discriminate|].
  destruct (delete_spec 2 Sample.bookmarks) as [_ H].
  destruct H as (s' & Hd & Hf & Hr & _); [discriminate|].
  exists s'. auto.
Defined.

Lemma delete_keeps_constraints_witness :
  constraints Sample.bookmarks
  /\ referentialIntegrity Sample.bookmarks
  /\ constraints (snd (EventsService.delete 2 Sample.bookmarks))
  /\ referentialIntegrity (snd (EventsService.delete 2 Sample.bookmarks)).
Proof.
  split; [exact constraints_bookmarks|]. split; [exact integrity_bookmarks|].
  apply (delete_keeps_constraints 2 Sample.bookmarks constraints_bookmarks
           integrity_bookmarks).
Defined.

Lemma delete_then_bookmarks_witness :
  constraints Sample.bookmarks
  /\ Lucid.findEvent Sample.bookmarks 2 <> None
  /\ BookmarksService.getBookmarkStats 1
       (snd (EventsService.delete 2 Sample.bookmarks))
     = BookmarksService.getBookmarkStats 1 Sample.bookmarks
       - (if BookmarksService.isBookmarked 1 2 Sample.bookmarks
          then 1 else 0).
Proof.
  split; [exact constraints_bookmarks|]. split; [discriminate|].
  destruct (delete_then_bookmarks 2 Sample.bookmarks constraints_bookmarks)
    with (u := 1) as [H _]; [discriminate|].
  exact H.
Defined.

Lemma deleteEvent_handle_status_witness :
  Lucid.findEvent Sample.bookmarks 9 = None
  /\ DeleteEventController.handle 9 Sample.bookmarks
     = (DeleteEventController.notFound "Event not found" "EVENT_NOT_FOUND",
        Sample.bookmarks).
Proof.
  split; [reflexivity|].
  destruct (deleteEvent_handle_status 9 Sample.bookmarks) as [H _].
  apply H. reflexivity.
Defined.

Lemma getAll_page_length_witness :
  1 <= EventsService.effectivePage Sample.page2of5
  /\ 1 <= EventsService.safeLimit Sample.page2of5
  /\ exists pg,
       EventsService.getAll Sample.page2of5 Sample.bookmarks = Ok pg
       /\ Z.of_nat (List.length (Lucid.all pg)) = 1
       /\ Lucid.total pg = 2.
Proof.
  split; [vm_compute; discriminate|]. split; [vm_compute; discriminate|].
  eexists. split; [reflexivity|].
  destruct (getAll_page_length Sample.page2of5 Sample.bookmarks _ eq_refl)
    as [Hlen Htot]; [vm_compute; discriminate|vm_compute; discriminate|].
  split; [rewrite Hlen|rewrite Htot]; reflexivity.
Defined.

Lemma getAll_participants_witness :
  exists pg,
    EventsService.getAll Sample.page2of5 Sample.bookmarks = Ok pg
    /\ forall le, In le (Lucid.all pg) ->
         EventsService.participants le
         = Some (rowsFor 1 (Event.id (EventsService.event le))
                         Sample.bookmarks).
Proof.
  eexists. split; [reflexivity|].
  intros le Hle.
  destruct (getAll_participants Sample.page2of5 Sample.bookmarks _ eq_refl
              le Hle) as [H _].
  exact H.
Defined.


Lemma getAll_city_case_insensitive_witness :
  plain (EventsService.trim "TOULOUSE") = true
  /\ plain (EventsService.trim " toulouse ") = true
  /\ EventsService.getAll (Sample.byCity "TOULOUSE") Sample.empty
     = EventsService.getAll (Sample.byCity " toulouse ") Sample.empty.
Proof.
  split; [reflexivity|]. split; [reflexivity|].
  apply (getAll_city_case_insensitive None None None None
           "TOULOUSE" " toulouse " None None None Sample.empty);
    reflexivity.
Defined.

Lemma getUserBookmarks_no_ceiling_witness :
  Z.of_nat (List.length (BookmarksService.bookmarkListing 1 Sample.bookmarks))
  <= 5000
  /\ exists pg,
       BookmarksService.getUserBookmarks 1 (Some 1) (Some 5000)
                                         Sample.bookmarks = Ok pg
       /\ Lucid.perPage pg = 5000
       /\ Lucid.total pg = 2.
Proof.
  assert (H : Z.of_nat (List.length
                (BookmarksService.bookmarkListing 1 Sample.bookmarks))
              <= 5000) by (vm_compute; discriminate).
  split; [exact H|].
  destruct (getUserBookmarks_no_ceiling 1 5000 Sample.bookmarks H)
    as (pg & Hpg & Hper & Htot & _).
  exists pg. split; [exact Hpg|]. split; [exact Hper|].
  rewrite Htot. reflexivity.
Defined.

Lemma getUserBookmarks_page_order_witness :
  1 <= 1 /\ 0 <= 1
  /\ exists pg,
       BookmarksService.getUserBookmarks 1 (Some 1) (Some 1) Sample.bookmarks
       = Ok pg
       /\ map Event.title (Lucid.all pg) = ["Jazz in pictures"%string]
       /\ Lucid.total pg = 2.
Proof.
  split; [lia|]. split; [lia|].
  destruct (getUserBookmarks_page_order 1 1 1 Sample.bookmarks)
    as (pg & rows & Hpg & _); [lia|lia|].
  exists pg. split; [exact Hpg|].
  cbv in Hpg. injection Hpg as <-. split; reflexivity.
Defined.

Lemma uploadFile_then_deleteFile_witness :
  forallb normalSegment Sample.publicDir = true
  /\ normalDisk [] = true
  /\ DriveService.endsWithSlash
       (DriveService.extnameInTemplate Sample.pngFile) = false
  /\ exists url disk',
       DriveService.uploadFile Sample.publicDir "ck1" true Sample.pngFile
                               Sample.bannerConfig []
       = (DriveService.Returned url, disk')
       /\ url = "/uploads/events/event_7_ck1.png"%string
       /\ disk' = [["srv"; "app"; "public"; "uploads"; "events";
                    "event_7_ck1.png"]%string]
       /\ DriveService.deleteFile Sample.publicDir (Some url)
                                  Sample.bannerConfig disk' = [].
Proof.
  split; [reflexivity|]. split; [reflexivity|]. split; [reflexivity|].
  eexists; eexists. split; [reflexivity|]. split; [reflexivity|].
  split; [reflexivity|].
  destruct (uploadFile_then_deleteFile Sample.publicDir "ck1" true
              Sample.pngFile Sample.bannerConfig [] _ _
              eq_refl eq_refl eq_refl eq_refl)
    as (_ & _ & _ & _ & _ & H).
  apply H. intros [].
Defined.

Lemma replaceFile_invalid_type_still_deletes_witness :
  normalDisk [Sample.oldBanner] = true
  /\ existsb (String.eqb (DriveService.extnameOrEmpty Sample.exeFile))
             (DriveService.allowedExtensions Sample.bannerConfig) = false
  /\ DriveService.joinEndsWithSlash
       (DriveService.uploadsPath Sample.bannerConfig) "../events/old.png"
     = false
  /\ DriveService.join
       (DriveService.publicPath Sample.publicDir
          (DriveService.uploadsPath Sample.bannerConfig))
       "../events/old.png" = Sample.oldBanner
  /\ snd (DriveService.replaceFile Sample.publicDir "ck2" true
            Sample.exeFile Sample.bannerConfig
            (Some "/uploads/events/../events/old.png"%string)
            [Sample.oldBanner]) = [].
Proof.
  split; [reflexivity|]. split; [reflexivity|]. split; [reflexivity|].
  split; [reflexivity|].
  destruct (replaceFile_invalid_type_still_deletes Sample.publicDir "ck2"
              true Sample.exeFile Sample.bannerConfig "../events/old.png"
              [Sample.oldBanner] eq_refl eq_refl eq_refl) as [H _].
  change (DriveService.pathPrefixOf Sample.bannerConfig
          ++ "../events/old.png")%string
    with "/uploads/events/../events/old.png"%string in H.
  rewrite H. reflexivity.
Defined.

Lemma addBookmark_interleaved_keeps_constraints_witness :
  constraints (Sample.concurrentRemove Sample.bookmarks)
  /\ exists row s',
       BookmarksService.addBookmark_interleaved
         10 1 1 Sample.concurrentRemove Sample.bookmarks = Ok (row, s')
       /\ constraints s'.
Proof.
  assert (Hc : constraints (Sample.concurrentRemove Sample.bookmarks)).
  { unfold constraints; simpl. repeat split.
    - repeat constructor; simpl; intuition discriminate.
    - intros r [<-|[]]; simpl; lia.
    - repeat constructor; simpl; intuition discriminate. }
  split; [exact Hc|].
  eexists; eexists. split; [reflexivity|].
  destruct (addBookmark_interleaved_keeps_constraints 10 1 1
              Sample.concurrentRemove Sample.bookmarks _ _ Hc eq_refl)
    as [H _].
  exact H.
Defined.

Lemma addBookmark_interleaved_row_gone_witness :
  BookmarksService.addBookmark_read 1 2 Sample.bookmarks
  = Ok (Some (EventUser.mk 2 1 2 true false 2000))
  /\ BookmarksService.addBookmark_interleaved
       10 1 2 Sample.concurrentRemove Sample.bookmarks
     = Ok (EventUser.mk 2 1 2 true false 2000,
           Sample.concurrentRemove Sample.bookmarks)
  /\ BookmarksService.isBookmarked 1 2
       (Sample.concurrentRemove Sample.bookmarks) = false.
Proof.
  split; [reflexivity|]. split; [|reflexivity].
  apply (addBookmark_interleaved_row_gone 10 1 2 Sample.concurrentRemove
           Sample.bookmarks (EventUser.mk 2 1 2 true false 2000));
    [reflexivity|].
  intros r [<-|[]]. simpl. discriminate.
Defined.
